(** * Desktop File Organizer: a shallow embedding of [desktop_organizer.py]

  The development follows the classes of the program, leaf first:
  [FileCategorizer], [FileScanner], [FolderManager], [FileMover],
  [OrganizationLogger] and [DesktopOrganizer].  File names are Rocq
  strings (sequences of one-byte characters), paths are lists of path
  components below the directory being organized, and the directory
  tree is an explicit value that every operation takes and returns. *)

From Stdlib Require Import ZArith Ascii String List Lia.
From stdpp Require Import base option list gmap fin_maps strings pretty sorting.

Local Open Scope string_scope.

(** ** Strings as Python uses them *)

Module Str.

(** [s.rfind(c)]: the highest index at which [c] occurs, [-1] if none. *)
Fixpoint rfind (s : string) (c : ascii) : Z :=
  match s with
  | EmptyString => (-1)%Z
  | String a s' =>
      let r := rfind s' c in
      if (0 <=? r)%Z then (r + 1)%Z
      else if Ascii.eqb a c then 0%Z else (-1)%Z
  end.

(** [s[i:]] for [0 <= i]. *)
Fixpoint slice_from (i : nat) (s : string) : string :=
  match i, s with
  | O, _ => s
  | S _, EmptyString => EmptyString
  | S i', String _ s' => slice_from i' s'
  end.

(** [s[:i]] for [0 <= i]. *)
Fixpoint slice_to (i : nat) (s : string) : string :=
  match i, s with
  | O, _ => EmptyString
  | S _, EmptyString => EmptyString
  | S i', String a s' => String a (slice_to i' s')
  end.

(** [str.lower] on the ASCII range: 'A'..'Z' become 'a'..'z', every
      other byte is kept. *)
Definition lower_char (c : ascii) : ascii :=
  let n := nat_of_ascii c in
  if (65 <=? n)%nat && (n <=? 90)%nat then ascii_of_nat (n + 32) else c.

Fixpoint lower (s : string) : string :=
  match s with
  | EmptyString => EmptyString
  | String a s' => String (lower_char a) (lower s')
  end.

(** [c in s] for a character. *)
Fixpoint has_char (c : ascii) (s : string) : bool :=
  match s with
  | EmptyString => false
  | String a s' => Ascii.eqb a c || has_char c s'
  end.

End Str.

(** ** [pathlib.Path], restricted to the paths the program builds

  A path is the list of components below [desktop_path]: [[]] is the
  desktop directory itself, [[n]] is [desktop_path / n] and [[c; n]] is
  [desktop_path / c / n]. *)

Abbreviation Path := (list string).

(** [p / n] *)
Definition joinpath (p : Path) (n : string) : Path := p ++ [n].

(** [p.name]: the final component. *)
Definition Path_name (p : Path) : string := List.last p "".

(** [p.parent] *)
Definition Path_parent (p : Path) : Path := removelast p.

(** [PurePath.suffix] (CPython 3.8 to 3.13):
<<
  name = self.name
  i = name.rfind('.')
  if 0 < i < len(name) - 1: return name[i:]
  else: return ''
>> *)
Definition name_suffix (name : string) : string :=
  let i := Str.rfind name "." in
  if (0 <? i)%Z && (i <? Z.of_nat (String.length name) - 1)%Z
  then Str.slice_from (Z.to_nat i) name
  else "".

(** [PurePath.stem]: the same test, returning [name[:i]] or [name]. *)
Definition name_stem (name : string) : string :=
  let i := Str.rfind name "." in
  if (0 <? i)%Z && (i <? Z.of_nat (String.length name) - 1)%Z
  then Str.slice_to (Z.to_nat i) name
  else name.

Definition Path_suffix (p : Path) : string := name_suffix (Path_name p).
Definition Path_stem (p : Path) : string := name_stem (Path_name p).

(** ** FileCategorizer *)

(** [CATEGORIES]: a dict literal, iterated in declaration order. *)
Definition CATEGORIES : list (string * list string) :=
  [ ("Images",    [".jpg"; ".jpeg"; ".png"; ".gif"; ".bmp"; ".svg"; ".ico"]);
    ("Documents", [".pdf"; ".doc"; ".docx"; ".txt"; ".xlsx"; ".pptx"; ".odt"]);
    ("Videos",    [".mp4"; ".avi"; ".mkv"; ".mov"; ".wmv"; ".flv"]);
    ("Music",     [".mp3"; ".wav"; ".flac"; ".aac"; ".ogg"; ".wma"]);
    ("Archives",  [".zip"; ".rar"; ".7z"; ".tar"; ".gz"]);
    ("Code",      [".py"; ".js"; ".html"; ".css"; ".java"; ".cpp"; ".c"; ".ts"; ".json"]) ].

(** [extension in extensions] *)
Definition ext_in (extension : string) (extensions : list string) : bool :=
  existsb (String.eqb extension) extensions.

(** The [for category, extensions in self.CATEGORIES.items()] loop: the
  first category whose list holds the extension, if any. *)
Fixpoint search_categories (extension : string)
  (table : list (string * list string)) : option string :=
  match table with
  | [] => None
  | (category, extensions) :: rest =>
      if ext_in extension extensions then Some category
      else search_categories extension rest
  end.

Definition categorize_file (file_path : Path) : string :=
  let extension := Str.lower (Path_suffix file_path) in
  if String.eqb extension "" then "Miscellaneous"
  else match search_categories extension CATEGORIES with
       | Some category => category
       | None => "Miscellaneous"
       end.


(** ** The directory tree

    The tree has the two levels the program touches: the entries of the
    desktop directory, and the entries of each folder below it. *)

(** An entry of a folder: a file with its content, or a subdirectory
    (whose own content no operation of the program looks at). *)
Inductive item : Type :=
  | ItemFile (data : string)
  | ItemDir.

(** An entry of the desktop directory.  [locked] marks a file held open
    exclusively by another process, which may be neither renamed, read
    nor removed; [writable] is the write permission of a folder. *)
Inductive entry : Type :=
  | RegularFile (data : string) (locked : bool)
  | Folder (writable : bool) (items : gmap string item).

(** What is found at [desktop_path].  A directory carries its read
    (listing) and write permissions and its entries in the order in
    which the operating system enumerates them. *)
Inductive desktop : Type :=
  | Missing
  | NotADirectory
  | Directory (listable writable : bool) (entries : list (string * entry)).

Fixpoint lookup_entry (n : string) (es : list (string * entry)) : option entry :=
  match es with
  | [] => None
  | (k, e) :: rest => if String.eqb k n then Some e else lookup_entry n rest
  end.

Fixpoint remove_entry (n : string) (es : list (string * entry)) : list (string * entry) :=
  match es with
  | [] => []
  | (k, e) :: rest =>
      if String.eqb k n then remove_entry n rest else (k, e) :: remove_entry n rest
  end.

Fixpoint replace_entry (n : string) (e' : entry) (es : list (string * entry))
    : list (string * entry) :=
  match es with
  | [] => []
  | (k, e) :: rest =>
      if String.eqb k n then (k, e') :: rest else (k, e) :: replace_entry n e' rest
  end.

(** ** Exceptions, with the part of Python's class hierarchy the handlers
    of the program distinguish *)

Inductive exn : Type :=
  | FileNotFoundError
  | PermissionError
  | FileExistsError
  | NotADirectoryError
  | ShutilError          (* shutil.Error, a subclass of OSError *)
  | UnicodeEncodeError   (* a ValueError: an Exception that is not an OSError *)
  | SystemExit           (* a BaseException that is not an Exception *)
  | KeyboardInterrupt.   (* a BaseException that is not an Exception *)

Definition is_PermissionError (e : exn) : bool :=
  match e with PermissionError => true | _ => false end.

Definition is_OSError (e : exn) : bool :=
  match e with
  | FileNotFoundError | PermissionError | FileExistsError
  | NotADirectoryError | ShutilError => true
  | UnicodeEncodeError | SystemExit | KeyboardInterrupt => false
  end.

Definition is_Exception (e : exn) : bool :=
  match e with SystemExit | KeyboardInterrupt => false | _ => true end.

(** [str(e)]; the operating system's text also names the paths involved,
    which the model leaves out. *)
Definition str_exn (e : exn) : string :=
  match e with
  | FileNotFoundError => "[Errno 2] No such file or directory"
  | PermissionError => "[Errno 13] Permission denied"
  | FileExistsError => "[Errno 17] File exists"
  | NotADirectoryError => "[Errno 20] Not a directory"
  | ShutilError => "Destination path already exists"
  | UnicodeEncodeError => "'charmap' codec can't encode character"
  | SystemExit => "0"
  | KeyboardInterrupt => ""
  end.

(** ** Operating-system calls on the tree *)

(** [Path.exists()] *)
Definition path_exists (d : desktop) (p : Path) : bool :=
  match p, d with
  | [], Missing => false
  | [], _ => true
  | [n], Directory _ _ es => bool_decide (is_Some (lookup_entry n es))
  | [c; n], Directory _ _ es =>
      match lookup_entry c es with
      | Some (Folder _ items) => bool_decide (is_Some (items !! n))
      | _ => false
      end
  | _, _ => false
  end.

(** [Path.is_file()] *)
Definition path_is_file (d : desktop) (p : Path) : bool :=
  match p, d with
  | [], NotADirectory => true
  | [n], Directory _ _ es =>
      match lookup_entry n es with Some (RegularFile _ _) => true | _ => false end
  | [c; n], Directory _ _ es =>
      match lookup_entry c es with
      | Some (Folder _ items) =>
          match items !! n with Some (ItemFile _) => true | _ => false end
      | _ => false
      end
  | _, _ => false
  end.

(** [Path.is_dir()] *)
Definition path_is_dir (d : desktop) (p : Path) : bool :=
  match p, d with
  | [], Directory _ _ _ => true
  | [n], Directory _ _ es =>
      match lookup_entry n es with Some (Folder _ _) => true | _ => false end
  | [c; n], Directory _ _ es =>
      match lookup_entry c es with
      | Some (Folder _ items) =>
          match items !! n with Some ItemDir => true | _ => false end
      | _ => false
      end
  | _, _ => false
  end.

(** The content of the regular file at [p], if there is one. *)
Definition file_data (d : desktop) (p : Path) : option string :=
  match p, d with
  | [n], Directory _ _ es =>
      match lookup_entry n es with Some (RegularFile data _) => Some data | _ => None end
  | [c; n], Directory _ _ es =>
      match lookup_entry c es with
      | Some (Folder _ items) =>
          match items !! n with Some (ItemFile data) => Some data | _ => None end
      | _ => None
      end
  | _, _ => None
  end.

(** What the program can find out about a path: whether something is
    there, whether it is a directory, and what a regular file holds. *)
Definition stat (d : desktop) (p : Path) : bool * bool * option string :=
  (path_exists d p, path_is_dir d p, file_data d p).

(** [os.listdir] of the desktop directory, as [Path.iterdir] uses it. *)
Definition os_listdir (d : desktop) : exn + list string :=
  match d with
  | Missing => inl FileNotFoundError
  | NotADirectory => inl NotADirectoryError
  | Directory listable _ es =>
      if listable then inr (map fst es) else inl PermissionError
  end.

(** [os.mkdir] for a new entry of the desktop directory.  The program
    creates directories nowhere else. *)
Definition os_mkdir (p : Path) (d : desktop) : exn + desktop :=
  match p, d with
  | [c], Directory r w es =>
      match lookup_entry c es with
      | Some _ => inl FileExistsError
      | None =>
          if w then inr (Directory r w (es ++ [(c, Folder true ∅)]))
          else inl PermissionError
      end
  | [], Missing => inr (Directory true true [])
  | [], _ => inl FileExistsError
  | _, Missing => inl FileNotFoundError
  | _, NotADirectory => inl NotADirectoryError
  | _, Directory _ _ _ => inl FileNotFoundError
  end.

(** Storing [data] as the file [m] of the folder [c]; the write needs
    the folder to exist and to be writable. *)
Definition write_item (c m data : string) (d : desktop) : exn + desktop :=
  match d with
  | Missing => inl FileNotFoundError
  | NotADirectory => inl NotADirectoryError
  | Directory r w es =>
      match lookup_entry c es with
      | None => inl FileNotFoundError
      | Some (RegularFile _ _) => inl NotADirectoryError
      | Some (Folder fw items) =>
          if fw
          then inr (Directory r w (replace_entry c (Folder fw (<[m := ItemFile data]> items)) es))
          else inl PermissionError
      end
  end.

(** Removing the file [n] from the desktop directory; it needs the file
    not to be locked and the desktop directory to be writable. *)
Definition remove_file (n : string) (d : desktop) : exn + desktop :=
  match d with
  | Missing => inl FileNotFoundError
  | NotADirectory => inl NotADirectoryError
  | Directory r w es =>
      match lookup_entry n es with
      | Some (RegularFile _ locked) =>
          if locked || negb w then inl PermissionError
          else inr (Directory r w (remove_entry n es))
      | Some (Folder _ _) => inl PermissionError
      | None => inl FileNotFoundError
      end
  end.

(** Reading the file [n] of the desktop directory. *)
Definition read_file (n : string) (d : desktop) : exn + string :=
  match d with
  | Missing => inl FileNotFoundError
  | NotADirectory => inl NotADirectoryError
  | Directory _ _ es =>
      match lookup_entry n es with
      | Some (RegularFile data locked) =>
          if locked then inl PermissionError else inr data
      | Some (Folder _ _) => inl PermissionError
      | None => inl FileNotFoundError
      end
  end.

(** [os.rename(src, dst)] of a desktop file into a folder: one atomic
    step that needs the source unlocked and both directories writable. *)
Definition os_rename (src dst : Path) (d : desktop) : exn + desktop :=
  match src, dst with
  | [n], [c; m] =>
      match read_file n d with
      | inl e => inl e
      | inr data =>
          match write_item c m data d with
          | inl e => inl e
          | inr d' => remove_file n d'
          end
      end
  | _, _ => inl FileNotFoundError
  end.

(** [shutil.copy2(src, dst)] of a desktop file into a folder. *)
Definition copy2 (src dst : Path) (d : desktop) : exn + desktop :=
  match src, dst with
  | [n], [c; m] =>
      match read_file n d with
      | inl e => inl e
      | inr data => write_item c m data d
      end
  | _, _ => inl FileNotFoundError
  end.

(** [os.unlink(src)] *)
Definition os_unlink (src : Path) (d : desktop) : exn + desktop :=
  match src with
  | [n] => remove_file n d
  | _ => inl FileNotFoundError
  end.

(** ** Statistics, console output and the state of a run *)

(** [OrganizationStats]; the [duration] field, a difference of two
    floating-point clock readings, is left out. *)
Record OrganizationStats : Type := {
  total_files : nat;
  files_moved : nat;
  files_failed : nat;
  category_counts : gmap string nat
}.

(** What [OrganizationLogger] prints, one value per call. *)
Inductive event : Type :=
  | LogStart
  | LogFileMove (filename category : string)
  | LogError (filename error : string)
  | LogSummary (stats : OrganizationStats).

(** The state the program runs in: the tree, what has been printed, and
    the texts the encoding of the console can write. *)
Record world : Type := {
  disk : desktop;
  console : list event;
  encodes : string -> bool
}.

(** ** A state and exception monad for the methods with effects

    A computation either returns, raises, or runs a loop past the bound
    the model gives it ([Diverge]); the state is kept in all three. *)

Inductive result (A : Type) : Type :=
  | Return (a : A)
  | Raise (e : exn)
  | Diverge.
Arguments Return {A} a.
Arguments Raise {A} e.
Arguments Diverge {A}.

Definition St (S A : Type) : Type := S -> result A * S.

(** The methods of the classes run on the world. *)
Definition M (A : Type) : Type := St world A.

Definition ret {S A} (a : A) : St S A := fun s => (Return a, s).

Definition bind {S A B} (c : St S A) (k : A -> St S B) : St S B :=
  fun s =>
    match c s with
    | (Return a, s') => k a s'
    | (Raise e, s') => (Raise e, s')
    | (Diverge, s') => (Diverge, s')
    end.

Definition raise {S A} (e : exn) : St S A := fun s => (Raise e, s).

Declare Scope monad_scope.
Delimit Scope monad_scope with monad.
Notation "x <- c ;; k" := (bind c (fun x => k))
  (at level 100, c at next level, right associativity) : monad_scope.
Notation "c ;; k" := (bind c (fun _ => k))
  (at level 100, right associativity) : monad_scope.
Local Open Scope monad_scope.

(** Reading the tree, and running an operating-system call on it. *)
Definition ask {A} (f : desktop -> A) : M A := fun w => (Return (f (disk w)), w).

Definition os_query {A} (f : desktop -> exn + A) : M A :=
  fun w => match f (disk w) with
           | inl e => (Raise e, w)
           | inr a => (Return a, w)
           end.

Definition os_call (f : desktop -> exn + desktop) : M unit :=
  fun w => match f (disk w) with
           | inl e => (Raise e, w)
           | inr d => (Return tt, {| disk := d; console := console w;
                                     encodes := encodes w |})
           end.

(** Whether the console can write the line of an event.  The banner and
    the summary are fixed texts, numbers and category labels; the line
    about a file holds the name of the file, and the console may have no
    encoding for it.  The reason given in an error line is taken to be
    text that the console can write. *)
Definition printable (can_write : string -> bool) (ev : event) : bool :=
  match ev with
  | LogFileMove filename _ => can_write filename
  | LogError filename _ => can_write filename
  | _ => true
  end.

(** [print]: the line is added to the console, or [UnicodeEncodeError]
    is raised when the console cannot encode it. *)
Definition print (ev : event) : M unit :=
  fun w =>
    if printable (encodes w) ev
    then (Return tt, {| disk := disk w; console := console w ++ [ev];
                        encodes := encodes w |})
    else (Raise UnicodeEncodeError, w).

(** [try: body  except C1 as e: h1  except C2 as e: h2 ...]: the first
    clause whose class the exception belongs to handles it; without one
    the exception goes on. *)
Definition try_except {S A} (body : St S A)
    (handlers : list ((exn -> bool) * (exn -> St S A))) : St S A :=
  fun s =>
    match body s with
    | (Raise e, s') =>
        match find (fun h => fst h e) handlers with
        | Some h => snd h e s'
        | None => (Raise e, s')
        end
    | r => r
    end.

(** ** FileScanner *)

(** The [for item in self.desktop_path.iterdir()] loop. *)
Fixpoint scan_loop (items : list Path) (files : list Path) : M (list Path) :=
  match items with
  | [] => ret files
  | item :: rest =>
      is_file <- ask (fun d => path_is_file d item) ;;
      scan_loop rest (if is_file then files ++ [item] else files)
  end.

Definition scan_files : M (list Path) :=
  let desktop_path : Path := [] in
  found <- ask (fun d => path_exists d desktop_path) ;;
  if negb found then raise FileNotFoundError
  else
    names <- os_query os_listdir ;;
    scan_loop (map (joinpath desktop_path) names) [].

(** ** FolderManager *)

(** [Path.mkdir(exist_ok=True)] (CPython):
<<
    try: os.mkdir(self, mode)
    except FileNotFoundError: raise            # parents is False
    except OSError:
        if not exist_ok or not self.is_dir(): raise
>> *)
Definition Path_mkdir (p : Path) (exist_ok : bool) : M unit :=
  try_except (os_call (os_mkdir p))
    [ ((fun e => match e with FileNotFoundError => true | _ => false end),
       fun e => raise e);
      (is_OSError,
       fun e => is_dir <- ask (fun d => path_is_dir d p) ;;
                if negb exist_ok || negb is_dir then raise e else ret tt) ].

Definition create_category_folder (category_name : string) : M Path :=
  let base_path : Path := [] in
  let folder_path := joinpath base_path category_name in
  Path_mkdir folder_path true ;;
  ret folder_path.

(** ** FileMover *)

(** [f"{stem}_{counter}{suffix}"] *)
Definition new_name (stem suffix : string) (counter : nat) : string :=
  stem +:+ "_" +:+ pretty counter +:+ suffix.

(** The [while True] loop of [_resolve_name_conflict], run for at most
    [fuel] rounds; [taken] is [new_path.exists()]. *)
Fixpoint resolve_loop (fuel : nat) (taken : string -> bool)
    (stem suffix : string) (counter : nat) : option string :=
  match fuel with
  | O => None
  | S fuel' =>
      if taken (new_name stem suffix counter)
      then resolve_loop fuel' taken stem suffix (S counter)
      else Some (new_name stem suffix counter)
  end.

(** The number of entries of the directory at [p]. *)
Definition dir_size (d : desktop) (p : Path) : nat :=
  match p, d with
  | [], Directory _ _ es => length es
  | [c], Directory _ _ es =>
      match lookup_entry c es with
      | Some (Folder _ items) => size items
      | _ => 0
      end
  | _, _ => 0
  end.

(** The loop is given one round more than the parent directory has
    entries (theorem [resolve_name_conflict_returns]: that is always
    enough). *)
Definition _resolve_name_conflict (destination : Path) : M Path :=
  let stem := Path_stem destination in
  let suffix := Path_suffix destination in
  let parent := Path_parent destination in
  fun w =>
    match resolve_loop (S (dir_size (disk w) parent))
            (fun new_name => path_exists (disk w) (joinpath parent new_name))
            stem suffix 1 with
    | Some new_name => (Return (joinpath parent new_name), w)
    | None => (Diverge, w)
    end.

(** [shutil.move(src, dst)] for a [dst] that does not exist and a [src]
    that is not a directory (CPython):
<<
    real_dst = dst
    try: os.rename(src, real_dst)
    except OSError:
        ...
        else:
            copy_function(src, real_dst)
            os.unlink(src)
>>
    When [dst] exists, [shutil.move] moves into it or over it, and a
    directory [src] is copied as a tree; [move_file] never asks for the
    first (lemma [move_file_eval]) and [organize] passes regular files
    only, so the model turns both requests down. *)
Definition shutil_move (src dst : Path) : M unit :=
  outside <- ask (fun d => path_exists d dst || path_is_dir d src) ;;
  if (outside : bool) then raise ShutilError
  else
    try_except (os_call (os_rename src dst))
      [ (is_OSError, fun _ => os_call (copy2 src dst) ;; os_call (os_unlink src)) ].

Definition move_file (source destination_folder : Path) : M (bool * option string) :=
  try_except
    (let destination := joinpath destination_folder (Path_name source) in
     occupied <- ask (fun d => path_exists d destination) ;;
     destination <- (if (occupied : bool) then _resolve_name_conflict destination
                     else ret destination) ;;
     shutil_move source destination ;;
     ret (true, None))
    [ (is_PermissionError, fun e => ret (false, Some ("Permission denied: " +:+ str_exn e)));
      (is_OSError, fun e => ret (false, Some ("OS error: " +:+ str_exn e)));
      (is_Exception, fun e => ret (false, Some ("Unexpected error: " +:+ str_exn e))) ].

(** ** OrganizationLogger *)

Definition log_start : M unit := print LogStart.
Definition log_file_move (filename category : string) : M unit :=
  print (LogFileMove filename category).
Definition log_error (filename error : string) : M unit :=
  print (LogError filename error).
Definition log_summary (stats : OrganizationStats) : M unit :=
  print (LogSummary stats).

(** ** DesktopOrganizer *)

(** The local variables of [organize] that the loop updates. *)
Record counters : Type := {
  moved : nat;
  failed : nat;
  counts : gmap string nat
}.

(** [files_moved += 1] and
    [category_counts[category] = category_counts.get(category, 0) + 1] *)
Definition count_moved (category : string) (c : counters) : counters :=
  {| moved := moved c + 1;
     failed := failed c;
     counts := <[category := default 0 (counts c !! category) + 1]> (counts c) |}.

(** [files_failed += 1] *)
Definition count_failed (c : counters) : counters :=
  {| moved := moved c; failed := failed c + 1; counts := counts c |}.

(** The loop runs on the counters and the world: a method call changes
    the world, an assignment the counters, and both are kept when an
    exception is raised, so that a handler finds the counters as the
    statements before the exception left them. *)
Definition loop_state : Type := counters * world.

Definition in_world {A} (c : M A) : St loop_state A :=
  fun s => let '(r, w') := c (snd s) in (r, (fst s, w')).

Definition assign (f : counters -> counters) : St loop_state unit :=
  fun s => (Return tt, (f (fst s), snd s)).

(** One round of [for file_path in files]. *)
Definition process_file (file_path : Path) : St loop_state unit :=
  try_except
    (let category := categorize_file file_path in
     category_folder <- in_world (create_category_folder category) ;;
     outcome <- in_world (move_file file_path category_folder) ;;
     let '(success, error_msg) := outcome in
     if (success : bool) then
       assign (count_moved category) ;;
       in_world (log_file_move (Path_name file_path) category)
     else
       assign count_failed ;;
       in_world (log_error (Path_name file_path)
                   (default "Failed to move file" error_msg)))
    [ (is_PermissionError,
       fun e => assign count_failed ;;
                in_world (log_error (Path_name file_path)
                            ("Permission denied: " +:+ str_exn e)));
      (is_OSError,
       fun e => assign count_failed ;;
                in_world (log_error (Path_name file_path)
                            ("OS error (file may be in use): " +:+ str_exn e)));
      (is_Exception,
       fun e => assign count_failed ;;
                in_world (log_error (Path_name file_path)
                            ("Unexpected error: " +:+ str_exn e))) ].

Fixpoint process_files (files : list Path) : St loop_state unit :=
  match files with
  | [] => ret tt
  | file_path :: rest => process_file file_path ;; process_files rest
  end.

(** Running the loop from the counters [init]: its final counters are
    what the rest of [organize] goes on with; an exception leaves
    [organize], and the counters are lost. *)
Definition with_counters (init : counters) (body : St loop_state unit) : M counters :=
  fun w =>
    match body (init, w) with
    | (Return _, (c, w')) => (Return c, w')
    | (Raise e, (_, w')) => (Raise e, w')
    | (Diverge, (_, w')) => (Diverge, w')
    end.

Definition organize : M OrganizationStats :=
  log_start ;;
  files <- scan_files ;;
  let total_files := length files in
  c <- with_counters {| moved := 0; failed := 0; counts := ∅ |} (process_files files) ;;
  let stats := {| total_files := total_files;
                  files_moved := moved c;
                  files_failed := failed c;
                  category_counts := counts c |} in
  log_summary stats ;;
  ret stats.

(** [sum(category_counts.values())] *)
Definition sum_counts (m : gmap string nat) : nat :=
  map_fold (fun _ n acc => n + acc) 0 m.

(** ** The categorizer as the specification words it

    The definitions of this part follow the text of the specification,
    not the code; the theorems compare them with [categorize_file]. *)

(** The name cut at its last ['.']: the text before it and the text
    after it; [None] when the name has no ['.']. *)
Fixpoint split_last_dot (s : string) : option (string * string) :=
  match s with
  | EmptyString => None
  | String a s' =>
      match split_last_dot s' with
      | Some (before, after) => Some (String a before, after)
      | None => if Ascii.eqb a "." then Some (EmptyString, s') else None
      end
  end.

(** "the substring from the last [.] in the base name onward (case-folded
    to lowercase); if no [.] exists or the name has no characters after
    it, the extension is empty" *)
Definition spec_extension (name : string) : string :=
  match split_last_dot name with
  | None => ""
  | Some (_, after) =>
      if String.eqb after "" then "" else Str.lower (String "." after)
  end.

(** The same, with one more case in which the extension is empty: the
    last ['.'] is the first character of the name. *)
Definition dotfile_aware_extension (name : string) : string :=
  match split_last_dot name with
  | None => ""
  | Some (before, after) =>
      if String.eqb before "" || String.eqb after "" then ""
      else Str.lower (String "." after)
  end.

(** "Empty extension: Miscellaneous.  Non-empty extension: first category
    whose extension set contains it wins.  No match: Miscellaneous." *)
Definition spec_categorize (extension_of : string -> string) (name : string) : string :=
  let extension := extension_of name in
  if String.eqb extension "" then "Miscellaneous"
  else match List.find (fun row => bool_decide (extension ∈ snd row)) CATEGORIES with
       | Some row => fst row
       | None => "Miscellaneous"
       end.

(** A file name carries the extension [ext] of the table in some casing:
    it is a non-empty base followed by a spelling of [ext]. *)
Definition carries_extension (name ext : string) : Prop :=
  exists base spelling,
    name = base +:+ spelling /\ base <> "" /\ Str.lower spelling = ext.

(** ** Sample trees for the examples *)

(** A console that writes the ASCII characters and no others. *)
Fixpoint ascii_only (s : string) : bool :=
  match s with
  | EmptyString => true
  | String a s' => (nat_of_ascii a <? 128)%nat && ascii_only s'
  end.

(** A desktop holding ['report.pdf'] and a Documents folder that already
    holds files of the names [held]. *)
Definition report_tree (held : list string) : world :=
  {| disk := Directory true true
       [ ("report.pdf", RegularFile "new" false);
         ("Documents", Folder true (list_to_map ((fun n => (n, ItemFile "old")) <$> held))) ];
     console := [];
     encodes := ascii_only |}.


(** A desktop on which a regular file has the name of a category. *)
Definition conflict_tree : world :=
  {| disk := Directory true true
       [ ("a.jpg", RegularFile "A" false);
         ("Images", RegularFile "I" false);
         ("b.txt", RegularFile "B" false) ];
     console := [];
     encodes := ascii_only |}.

(** A desktop with files of several kinds, one of them locked, a
    subdirectory, and a Documents folder left by an earlier run. *)
Definition mixed_tree : world :=
  {| disk := Directory true true
       [ ("photo.JPG", RegularFile "P" false);
         ("notes", RegularFile "N" false);
         ("Old", Folder true ∅);
         ("archive.tar.gz", RegularFile "Z" true);
         ("report.pdf", RegularFile "R" false);
         ("Documents", Folder true {[ "report.pdf" := ItemFile "old" ]});
         ("song.mp3", RegularFile "S" false) ];
     console := [];
     encodes := ascii_only |}.

(** A file name with a character outside ASCII. *)
Definition accented_name (suffix : string) : string :=
  String (ascii_of_nat 233) suffix.

(** A desktop with one file of such a name, on an ASCII console. *)
Definition unprintable_tree : world :=
  {| disk := Directory true true [ (accented_name ".txt", RegularFile "E" false) ];
     console := [];
     encodes := ascii_only |}.



(** ** Reading the console *)

Definition is_move (ev : event) : bool :=
  match ev with LogFileMove _ _ => true | _ => false end.

Definition is_error (ev : event) : bool :=
  match ev with LogError _ _ => true | _ => false end.

Definition is_move_into (category : string) (ev : event) : bool :=
  match ev with LogFileMove _ c => String.eqb c category | _ => false end.

Definition count_events (f : event -> bool) (evs : list event) : nat :=
  length (List.filter f evs).

(** The event tells what became of the file: it was moved into its
    category, or it failed for a stated reason. *)
Definition reports (file_path : Path) (ev : event) : Prop :=
  ev = LogFileMove (Path_name file_path) (categorize_file file_path)
  \/ exists reason, reason <> "" /\ ev = LogError (Path_name file_path) reason.


(** What a run has done with a file it reports as moved, whatever else
    is in the list of files: the file held [data] before the run and is
    no file of the desktop after it, and [data] is in the folder of the
    category, at a path where nothing was before. *)
Definition relocated (before after : desktop) (file_path : Path) (ev : event) : Prop :=
  match ev with
  | LogFileMove _ category =>
      exists m data,
        file_data before file_path = Some data
        /\ file_data after file_path = None
        /\ path_exists before [category; m] = false
        /\ stat after [category; m] = (true, false, Some data)
  | _ => True
  end.

(** ** The summary of a run *)

(** The order in which [sorted] puts the items of the dict: their keys
    are different, so it is the order of the keys, character by
    character. *)
Definition row_le (a b : string * nat) : Prop := String.le (fst a) (fst b).

#[global] Instance row_le_dec : RelDecision row_le :=
  fun a b => String.le_dec (fst a) (fst b).

(** The loop of [log_summary]:
<<
    for category, count in sorted(stats.category_counts.items()):
        if count > 0: print(f"  {category}: {count}")
>>
    as the rows it prints, and the lines it prints for them. *)
Definition summary_rows (stats : OrganizationStats) : list (string * nat) :=
  filter (fun row => 0 < snd row)
         (merge_sort row_le (map_to_list (category_counts stats))).

Definition summary_lines (stats : OrganizationStats) : list string :=
  (fun row => "  " +:+ fst row +:+ ": " +:+ pretty (snd row)) <$> summary_rows stats.

(** ** The command-line entry point *)

Definition is_FileNotFoundError (e : exn) : bool :=
  match e with FileNotFoundError => true | _ => false end.

(** A line of the error block of [main]; these lines are not kept in
    the console of the model. *)
Definition say (text : string) : M unit :=
  fun w => if encodes w text then (Return tt, w) else (Raise UnicodeEncodeError, w).

(** [main].  [parsed] is what [parser.parse_args()] does: it raises
    [SystemExit] (for [--version], [--help] or arguments it rejects), or
    returns the arguments, of which [--path] names the directory that the
    tree of the state stands for.  [main] returns the exit status; the
    model adds the title of the error block that was printed, if any.
    Of the lines of the block, the one with [str(e)] is the one whose
    text is not fixed. *)
Definition main (parsed : exn + option string) : M (nat * option string) :=
  match parsed with
  | inl e => raise e
  | inr _ =>
      try_except
        (stats <- organize ;; ret (0, None))
        [ (is_FileNotFoundError,
           fun e => say ("Details: " +:+ str_exn e) ;;
                    ret (1, Some "ERROR: Cannot access Desktop directory"));
          (is_PermissionError,
           fun e => say ("Details: " +:+ str_exn e) ;;
                    ret (1, Some "ERROR: Permission denied accessing Desktop"));
          (is_Exception,
           fun e => say ("Details: " +:+ str_exn e) ;;
                    ret (1, Some "ERROR: Unexpected error occurred")) ]
  end.

(** * Theorems *)

(** ** Strings *)

Lemma string_app_nil t : "" +:+ t = t.
Proof. reflexivity. Qed.

Lemma string_app_cons a s t : String a s +:+ t = String a (s +:+ t).
Proof. reflexivity. Qed.

Ltac str_simpl := rewrite ?string_app_cons, ?string_app_nil; simpl.

Lemma string_app_length s t :
  String.length (s +:+ t) = String.length s + String.length t.
Proof. induction s as [|a s IH]; str_simpl; [done | by rewrite IH]. Qed.


Lemma string_app_empty_r s : s +:+ "" = s.
Proof. induction s as [|a s IH]; str_simpl; [done | by rewrite IH]. Qed.

Lemma string_app_inv_tail s1 s2 t : s1 +:+ t = s2 +:+ t -> s1 = s2.
Proof.
  revert s2. induction s1 as [|a s1 IH]; intros [|b s2] H.
  - done.
  - apply (f_equal String.length) in H. revert H. str_simpl.
    rewrite string_app_length. lia.
  - apply (f_equal String.length) in H. revert H. str_simpl.
    rewrite string_app_length. lia.
  - revert H. str_simpl. intros [= -> H]. f_equal. by apply IH.
Qed.

Lemma slice_from_app p x : Str.slice_from (String.length p) (p +:+ x) = x.
Proof. induction p as [|a p IH]; str_simpl; [by destruct x | done]. Qed.

Lemma slice_to_app p x : Str.slice_to (String.length p) (p +:+ x) = p.
Proof. induction p as [|a p IH]; str_simpl; [by destruct x | by rewrite IH]. Qed.


Lemma rfind_absent c s : Str.has_char c s = false -> Str.rfind s c = (-1)%Z.
Proof.
  induction s as [|a s IH]; simpl; [done|].
  intros [Ha Hs]%orb_false_iff. rewrite (IH Hs), Ha. done.
Qed.

Lemma rfind_last c p r :
  Str.has_char c r = false ->
  Str.rfind (p +:+ String c r) c = Z.of_nat (String.length p).
Proof.
  intros Hr. induction p as [|a p IH]; str_simpl.
  - rewrite (rfind_absent _ _ Hr). simpl. by rewrite Ascii.eqb_refl.
  - rewrite IH. destruct (Z.leb_spec 0 (Z.of_nat (String.length p))); lia.
Qed.

(** [split_last_dot] cuts where it says it does. *)
Lemma split_last_dot_None s :
  split_last_dot s = None -> Str.has_char "." s = false.
Proof.
  induction s as [|a s IH]; simpl; [done|].
  destruct (split_last_dot s) as [[b r]|]; [done|].
  destruct (Ascii.eqb a "."); [done|]. intros _. by rewrite IH.
Qed.

Lemma split_last_dot_Some s before after :
  split_last_dot s = Some (before, after) ->
  s = before +:+ String "." after /\ Str.has_char "." after = false.
Proof.
  revert before. induction s as [|a s IH]; intros before; simpl; [done|].
  destruct (split_last_dot s) as [[b r]|] eqn:E.
  - intros [= <- <-]. destruct (IH b eq_refl) as [-> ?]. done.
  - destruct (Ascii.eqb_spec a "."); [|done].
    intros [= <- <-]. subst a. split; [done|]. by apply split_last_dot_None.
Qed.

(** ** [PurePath.suffix] and [PurePath.stem] *)

Lemma suffix_test_cut p r :
  ((0 <? Z.of_nat (String.length p))%Z
   && (Z.of_nat (String.length p)
       <? Z.of_nat (String.length p + String.length (String "." r)) - 1)%Z)
  = negb (String.eqb p "" || String.eqb r "").
Proof.
  destruct p as [|a p], r as [|b r]; simpl String.length; simpl String.eqb; simpl orb;
    simpl negb.
  - done.
  - done.
  - apply andb_false_iff. right. apply Z.ltb_ge. lia.
  - apply andb_true_iff. split; apply Z.ltb_lt; lia.
Qed.

Lemma name_suffix_cut p r :
  Str.has_char "." r = false ->
  name_suffix (p +:+ String "." r)
  = if String.eqb p "" || String.eqb r "" then "" else String "." r.
Proof.
  intros Hr. unfold name_suffix. rewrite (rfind_last _ _ _ Hr).
  rewrite string_app_length, Nat2Z.id, slice_from_app, suffix_test_cut.
  by destruct (String.eqb p "" || String.eqb r "").
Qed.

Lemma name_stem_cut p r :
  Str.has_char "." r = false ->
  name_stem (p +:+ String "." r)
  = if String.eqb p "" || String.eqb r "" then p +:+ String "." r else p.
Proof.
  intros Hr. unfold name_stem. rewrite (rfind_last _ _ _ Hr).
  rewrite string_app_length, Nat2Z.id, slice_to_app, suffix_test_cut.
  by destruct (String.eqb p "" || String.eqb r "").
Qed.

Lemma name_suffix_nodot s : Str.has_char "." s = false -> name_suffix s = "".
Proof. intros H. unfold name_suffix. by rewrite (rfind_absent _ _ H). Qed.

Lemma name_stem_nodot s : Str.has_char "." s = false -> name_stem s = s.
Proof. intros H. unfold name_stem. by rewrite (rfind_absent _ _ H). Qed.

(** Every name is its stem followed by its suffix. *)
Lemma stem_suffix name : name_stem name +:+ name_suffix name = name.
Proof.
  destruct (split_last_dot name) as [[p r]|] eqn:E.
  - apply split_last_dot_Some in E as [-> Hr].
    rewrite name_stem_cut, name_suffix_cut by done.
    destruct (String.eqb p "" || String.eqb r ""); [apply string_app_empty_r | done].
  - apply split_last_dot_None in E.
    rewrite name_stem_nodot, name_suffix_nodot by done. apply string_app_empty_r.
Qed.


(** ** FileCategorizer *)

Lemma lower_char_dot c : Ascii.eqb (Str.lower_char c) "." = Ascii.eqb c ".".
Proof. destruct c as [[] [] [] [] [] [] [] []]; reflexivity. Qed.

Lemma has_char_lower s : Str.has_char "." (Str.lower s) = Str.has_char "." s.
Proof.
  induction s as [|a s IH]; simpl; [done|]. by rewrite lower_char_dot, IH.
Qed.

Lemma lower_empty s : Str.lower s = "" <-> s = "".
Proof. by destruct s. Qed.

Lemma ext_in_elem_of extension extensions :
  ext_in extension extensions = bool_decide (extension ∈ extensions).
Proof.
  unfold ext_in. induction extensions as [|x xs IH]; cbn [existsb].
  - symmetry. apply bool_decide_eq_false_2, not_elem_of_nil.
  - rewrite IH. destruct (String.eqb_spec extension x) as [->|Hne]; cbn [orb].
    + symmetry. apply bool_decide_eq_true_2. left.
    + apply bool_decide_ext. rewrite elem_of_cons. split; [by right | by intros [?|?]].
Qed.

(** The loop over the table is a search for the first row that holds
    the extension. *)
Lemma search_categories_find extension table :
  search_categories extension table
  = fst <$> List.find (fun row => bool_decide (extension ∈ snd row)) table.
Proof.
  induction table as [|[category extensions] rest IH]; simpl; [done|].
  rewrite ext_in_elem_of. by destruct (bool_decide _).
Qed.

Lemma lower_suffix_dotfile_aware name :
  Str.lower (name_suffix name) = dotfile_aware_extension name.
Proof.
  unfold dotfile_aware_extension.
  destruct (split_last_dot name) as [[p r]|] eqn:E.
  - apply split_last_dot_Some in E as [-> Hr]. rewrite name_suffix_cut by done.
    by destruct (String.eqb p "" || String.eqb r "").
  - by rewrite name_suffix_nodot by by apply split_last_dot_None.
Qed.

(** C1, as the code has it.  The extension [categorize_file] works with
    is the text from the last ['.'] of the name onward in lower case,
    and it is empty when the name has no ['.'], when nothing follows the
    last ['.'], and also when the last ['.'] is the first character of
    the name.  An empty extension gives Miscellaneous, any other one the
    first category of the table, in declaration order, that lists it,
    and Miscellaneous when none does.  So ['.py'] has no extension and
    is Miscellaneous. *)
Theorem categorize_file_dotfile_aware (file_path : Path) :
  Str.lower (Path_suffix file_path) = dotfile_aware_extension (Path_name file_path)
  /\ categorize_file file_path
     = spec_categorize dotfile_aware_extension (Path_name file_path)
  /\ dotfile_aware_extension ".py" = ""
  /\ categorize_file [".py"] = "Miscellaneous".
Proof.
  split; [apply lower_suffix_dotfile_aware|]. split; [|done].
  unfold categorize_file, spec_categorize, Path_suffix.
  rewrite lower_suffix_dotfile_aware, search_categories_find.
  destruct (String.eqb _ ""); [done|]. by destruct (List.find _ _).
Qed.

(** C1 as the specification states it fails on ['.py']: read from the
    last ['.'] onward the extension is ['.py'] and the category Code,
    while [categorize_file] answers Miscellaneous. *)
Lemma categorize_file_leading_dot_differs :
  spec_extension (Path_name [".py"]) = ".py"
  /\ spec_categorize spec_extension (Path_name [".py"]) = "Code"
  /\ categorize_file [".py"] = "Miscellaneous"
  /\ categorize_file [".py"] <> spec_categorize spec_extension (Path_name [".py"]).
Proof. repeat split; done. Qed.

(** Every extension of the table is a ['.'] followed by at least one
    character other than ['.'], and the search finds its own row. *)
Lemma table_rows_ok category extensions ext :
  In (category, extensions) CATEGORIES -> In ext extensions ->
  exists r, ext = String "." r /\ r <> "" /\ Str.has_char "." r = false
            /\ search_categories ext CATEGORIES = Some category.
Proof.
  unfold CATEGORIES. intros Hrow Hext. simpl in Hrow.
  repeat (destruct Hrow as [Hrow|Hrow]; [injection Hrow as <- <-|]); try done;
    simpl in Hext;
    repeat (destruct Hext as [<-|Hext]; [eexists; repeat split; done|]); done.
Qed.

Lemma lower_dot_inv spelling r :
  Str.lower spelling = String "." r ->
  exists r', spelling = String "." r' /\ Str.lower r' = r.
Proof.
  destruct spelling as [|c r']; simpl; [done|]. intros [= Hc Hr].
  exists r'. split; [|done]. f_equal.
  apply Ascii.eqb_eq. rewrite <- lower_char_dot, Hc. apply Ascii.eqb_refl.
Qed.

(** C6.  A name made of a non-empty base and any spelling (in upper,
    lower or mixed case) of an extension of the table is put into the
    category whose row lists that extension.  ['photo.JPG'] is Images,
    ['notes'] is Miscellaneous, and ['archive.tar.gz'] is Archives
    through ['.gz'], the text from its last ['.']. *)
Theorem categorize_file_table_extension :
  (forall category extensions ext file_path,
      In (category, extensions) CATEGORIES -> In ext extensions ->
      carries_extension (Path_name file_path) ext ->
      categorize_file file_path = category)
  /\ categorize_file ["photo.JPG"] = "Images"
  /\ categorize_file ["notes"] = "Miscellaneous"
  /\ categorize_file ["archive.tar.gz"] = "Archives"
  /\ Path_suffix ["archive.tar.gz"] = ".gz".
Proof.
  split; [|repeat split; reflexivity].
  intros category extensions ext file_path Hrow Hext (base & spelling & Hname & Hbase & Hlow).
  destruct (table_rows_ok _ _ _ Hrow Hext) as (r & -> & Hr & Hdot & Hfind).
  apply lower_dot_inv in Hlow as (r' & -> & Hr').
  assert (Str.has_char "." r' = false) as Hdot' by (by rewrite <- has_char_lower, Hr').
  assert (String.eqb r' "" = false) as Hne.
  { apply String.eqb_neq. intros ->. simpl in Hr'. by subst r. }
  unfold categorize_file, Path_suffix. rewrite Hname, name_suffix_cut by done.
  apply String.eqb_neq in Hbase. rewrite Hbase, Hne. simpl orb. cbv iota.
  simpl Str.lower. rewrite Hr'.
  replace (Str.lower_char ".") with "."%char by reflexivity.
  simpl String.eqb. by rewrite Hfind.
Qed.

Lemma categorize_file_table_extension_witness :
  categorize_file ["Desktop"; "Main.PY"] = "Code".
Proof.
  apply (proj1 categorize_file_table_extension "Code"
           [".py"; ".js"; ".html"; ".css"; ".java"; ".cpp"; ".c"; ".ts"; ".json"] ".py").
  - unfold CATEGORIES. simpl. tauto.
  - simpl. tauto.
  - exists "Main", ".PY". split; [reflexivity | split; [discriminate | reflexivity]].
Defined.

(** ** The conflict-resolution loop *)

Lemma new_name_inj stem suffix j k :
  new_name stem suffix j = new_name stem suffix k -> j = k.
Proof.
  unfold new_name. intros H.
  apply (inj (String.append stem)) in H. apply (inj (String.append "_")) in H.
  apply string_app_inv_tail in H. by apply (inj pretty) in H.
Qed.

Lemma resolve_loop_Some fuel taken stem suffix counter name :
  resolve_loop fuel taken stem suffix counter = Some name ->
  exists k, counter <= k < counter + fuel
            /\ name = new_name stem suffix k
            /\ taken (new_name stem suffix k) = false
            /\ forall j, counter <= j < k -> taken (new_name stem suffix j) = true.
Proof.
  revert counter. induction fuel as [|fuel IH]; intros counter; simpl; [done|].
  destruct (taken (new_name stem suffix counter)) eqn:T.
  - intros (k & Hk & -> & Hfree & Hbelow)%IH. exists k.
    repeat split; [lia | lia | done |]. intros j Hj.
    destruct (decide (j = counter)) as [->|]; [done | apply Hbelow; lia].
  - intros [= <-]. exists counter. repeat split; [lia | lia | done |]. intros; lia.
Qed.

Lemma resolve_loop_None fuel taken stem suffix counter :
  resolve_loop fuel taken stem suffix counter = None ->
  forall j, counter <= j < counter + fuel -> taken (new_name stem suffix j) = true.
Proof.
  revert counter. induction fuel as [|fuel IH]; intros counter; simpl; [intros; lia|].
  destruct (taken (new_name stem suffix counter)) eqn:T; [|done].
  intros H j Hj. destruct (decide (j = counter)) as [->|]; [done|].
  apply (IH _ H). lia.
Qed.

(** The loop ends within [S (length names)] rounds when every taken name
    is one of [names]: the candidates are pairwise different, so they
    cannot all be among [names]. *)
Lemma resolve_loop_finds taken stem suffix (names : list string) :
  (forall n, taken n = true -> n ∈ names) ->
  is_Some (resolve_loop (S (length names)) taken stem suffix 1).
Proof.
  intros Hin. destruct (resolve_loop _ _ _ _ _) eqn:E; [by eexists|].
  exfalso. pose proof (resolve_loop_None _ _ _ _ _ E) as Hall.
  set (cands := new_name stem suffix <$> seq 1 (S (length names))).
  assert (NoDup cands) as Hnd.
  { apply NoDup_fmap_2_strong; [|apply NoDup_seq].
    intros j k _ _. apply new_name_inj. }
  assert (cands ⊆ names) as Hsub.
  { intros n (j & -> & Hj%elem_of_seq)%list_elem_of_fmap. apply Hin, Hall. lia. }
  pose proof (submseteq_length _ _ (NoDup_submseteq _ _ Hnd Hsub)) as Hlen.
  unfold cands in Hlen. rewrite length_fmap, length_seq in Hlen. lia.
Qed.

Lemma lookup_entry_in n es :
  is_Some (lookup_entry n es) -> n ∈ map fst es.
Proof.
  induction es as [|[k e] es IH]; simpl; [by intros [? ?]|].
  destruct (String.eqb_spec k n) as [->|]; [left | right; auto].
Qed.

(** The names that exist in a directory are among a list as long as the
    directory is large. *)
Lemma taken_names d parent :
  exists names : list string,
    length names = dir_size d parent
    /\ forall n, path_exists d (joinpath parent n) = true -> n ∈ names.
Proof.
  destruct parent as [|c [|c' rest]]; unfold joinpath; simpl app.
  - destruct d as [| |r w es]; [by exists [] ..|].
    exists (map fst es). split; [apply length_map|].
    simpl. intros n H%bool_decide_eq_true. by apply lookup_entry_in.
  - destruct d as [| |r w es]; [by exists [] ..|]. simpl.
    destruct (lookup_entry c es) as [[data locked|fw items]|]; [by exists [] | | by exists []].
    exists (map fst (map_to_list items)). split.
    + by rewrite length_map, length_map_to_list.
    + intros n [x Hx]%bool_decide_eq_true.
      apply list_elem_of_fmap. exists (n, x). split; [done|].
      by apply elem_of_map_to_list.
  - exists []. split; [by destruct d|].
    intros n. destruct rest; simpl; by destruct d.
Qed.

Lemma Path_name_joinpath p n : Path_name (joinpath p n) = n.
Proof. apply last_last. Qed.

Lemma Path_parent_joinpath p n : Path_parent (joinpath p n) = p.
Proof. apply removelast_last. Qed.

(** [_resolve_name_conflict] returns, without touching the state, the
    candidate with the first number from 1 on whose name is free. *)
Lemma resolve_name_conflict_returns w folder name :
  exists k,
    1 <= k
    /\ _resolve_name_conflict (joinpath folder name) w
       = (Return (joinpath folder (new_name (name_stem name) (name_suffix name) k)), w)
    /\ path_exists (disk w)
         (joinpath folder (new_name (name_stem name) (name_suffix name) k)) = false
    /\ forall j, 1 <= j < k ->
         path_exists (disk w)
           (joinpath folder (new_name (name_stem name) (name_suffix name) j)) = true.
Proof.
  unfold _resolve_name_conflict, Path_stem, Path_suffix.
  rewrite Path_parent_joinpath, Path_name_joinpath.
  destruct (taken_names (disk w) folder) as (names & Hlen & Hnames).
  rewrite <- Hlen.
  destruct (resolve_loop_finds
              (fun n => path_exists (disk w) (joinpath folder n))
              (name_stem name) (name_suffix name) names Hnames) as [n Hn].
  rewrite Hn. apply resolve_loop_Some in Hn as (k & Hk & -> & Hfree & Hbelow).
  exists k. repeat split; [lia | done | done].
Qed.

(** ** Operating-system calls *)

Lemma lookup_remove_entry k n es :
  lookup_entry k (remove_entry n es)
  = if String.eqb n k then None else lookup_entry k es.
Proof.
  induction es as [|[x e] es IH]; simpl; [by destruct (String.eqb n k)|].
  destruct (String.eqb_spec x n) as [->|Hxn]; simpl.
  - rewrite IH. by destruct (String.eqb n k).
  - rewrite IH. destruct (String.eqb_spec x k) as [->|Hxk]; [|done].
    by destruct (String.eqb_spec n k) as [->|].
Qed.

Lemma lookup_replace_entry k n e' es :
  lookup_entry k (replace_entry n e' es)
  = if String.eqb n k then (fun _ => e') <$> lookup_entry k es else lookup_entry k es.
Proof.
  induction es as [|[x e] es IH]; simpl; [by destruct (String.eqb n k)|].
  destruct (String.eqb_spec x n) as [->|Hxn]; simpl.
  - by destruct (String.eqb_spec n k) as [->|].
  - rewrite IH. destruct (String.eqb_spec x k) as [->|Hxk]; [|done].
    by destruct (String.eqb_spec n k) as [->|].
Qed.

Lemma read_file_raises n d e : read_file n d = inl e -> is_OSError e = true.
Proof.
  destruct d as [| |r w es]; simpl; [by intros [= <-] ..|].
  destruct (lookup_entry n es) as [[data []|fw items]|]; by intros [= <-].
Qed.

Lemma write_item_raises c m data d e :
  write_item c m data d = inl e -> is_OSError e = true.
Proof.
  destruct d as [| |r w es]; simpl; [by intros [= <-] ..|].
  destruct (lookup_entry c es) as [[? ?|[] items]|]; by intros [= <-].
Qed.

Lemma remove_file_raises n d e : remove_file n d = inl e -> is_OSError e = true.
Proof.
  destruct d as [| |r w es]; simpl; [by intros [= <-] ..|].
  destruct (lookup_entry n es) as [[data locked|fw items]|]; [|by intros [= <-] ..].
  destruct (locked || negb w); by intros [= <-].
Qed.

Lemma os_rename_raises src dst d e : os_rename src dst d = inl e -> is_OSError e = true.
Proof.
  unfold os_rename. destruct src as [|n [|]]; [by intros [= <-] | | by intros [= <-]].
  destruct dst as [|c [|m [|]]]; [by intros [= <-] .. | | by intros [= <-]].
  destruct (read_file n d) eqn:R; [intros [= <-]; by eapply read_file_raises|].
  destruct (write_item c m s d) eqn:W; [intros [= <-]; by eapply write_item_raises|].
  apply remove_file_raises.
Qed.

Lemma copy2_raises src dst d e : copy2 src dst d = inl e -> is_OSError e = true.
Proof.
  unfold copy2. destruct src as [|n [|]]; [by intros [= <-] | | by intros [= <-]].
  destruct dst as [|c [|m [|]]]; [by intros [= <-] .. | | by intros [= <-]].
  destruct (read_file n d) eqn:R; [intros [= <-]; by eapply read_file_raises|].
  apply write_item_raises.
Qed.

Lemma os_unlink_raises src d e : os_unlink src d = inl e -> is_OSError e = true.
Proof.
  unfold os_unlink. destruct src as [|n [|]]; [by intros [= <-] | | by intros [= <-]].
  apply remove_file_raises.
Qed.

Lemma read_file_data n d data : read_file n d = inr data -> file_data d [n] = Some data.
Proof.
  destruct d as [| |r w es]; simpl; [done..|].
  destruct (lookup_entry n es) as [[x []|fw items]|]; try done. by intros [= ->].
Qed.

(** A write changes what is found at the written path, and nothing else. *)
Lemma write_item_effect c m data d d' :
  write_item c m data d = inr d' ->
  stat d' [c; m] = (true, false, Some data)
  /\ forall p, p <> [c; m] -> stat d' p = stat d p.
Proof.
  destruct d as [| |r w es]; simpl; [done..|].
  destruct (lookup_entry c es) as [[? ?|[] items]|] eqn:L; try done.
  intros [= <-]. unfold stat. split.
  - simpl. rewrite lookup_replace_entry, String.eqb_refl, L. simpl.
    by rewrite lookup_insert_eq.
  - intros [|k [|j [|? ?]]] Hp; [done | | | done]; simpl;
      rewrite lookup_replace_entry; destruct (String.eqb_spec c k) as [->|]; try done.
    + by rewrite L.
    + rewrite L. simpl. rewrite lookup_insert_ne; [done | congruence].
Qed.

(** A removal empties the removed path, and changes nothing else. *)
Lemma remove_file_effect n d d' :
  remove_file n d = inr d' ->
  stat d' [n] = (false, false, None)
  /\ forall p, p <> [n] -> stat d' p = stat d p.
Proof.
  destruct d as [| |r w es]; simpl; [done..|].
  destruct (lookup_entry n es) as [[data locked|fw items]|] eqn:L; try done.
  destruct (locked || negb w); [done|]. intros [= <-]. unfold stat. split.
  - simpl. by rewrite lookup_remove_entry, String.eqb_refl.
  - intros [|k [|j [|? ?]]] Hp; [done | | | done]; simpl;
      rewrite lookup_remove_entry; destruct (String.eqb_spec n k) as [->|]; try done.
    by rewrite L.
Qed.

(** A rename empties the source, puts its content at the destination,
    and changes nothing else. *)
Lemma os_rename_effect src dst d d' :
  os_rename src dst d = inr d' ->
  exists data,
    file_data d src = Some data
    /\ stat d' src = (false, false, None)
    /\ stat d' dst = (true, false, Some data)
    /\ forall p, p <> src -> p <> dst -> stat d' p = stat d p.
Proof.
  unfold os_rename. destruct src as [|n [|]]; [done | | done].
  destruct dst as [|c [|m [|]]]; [done.. | | done].
  destruct (read_file n d) as [|data] eqn:R; [done|].
  destruct (write_item c m data d) as [|d1] eqn:W; [done|]. intros Hrm.
  apply read_file_data in R. apply write_item_effect in W as [Wdst Wrest].
  apply remove_file_effect in Hrm as [Rsrc Rrest].
  exists data. repeat split; [done | done | by rewrite Rrest |].
  intros p Hsrc Hdst. by rewrite Rrest, Wrest.
Qed.

(** A copy puts the content of the source at the destination, and
    changes nothing else. *)
Lemma copy2_effect src dst d d' :
  copy2 src dst d = inr d' ->
  exists data,
    file_data d src = Some data
    /\ stat d' dst = (true, false, Some data)
    /\ forall p, p <> dst -> stat d' p = stat d p.
Proof.
  unfold copy2. destruct src as [|n [|]]; [done | | done].
  destruct dst as [|c [|m [|]]]; [done.. | | done].
  destruct (read_file n d) as [|data] eqn:R; [done|]. intros W.
  apply read_file_data in R. apply write_item_effect in W as [Wdst Wrest].
  by exists data.
Qed.

Lemma os_unlink_effect src d d' :
  os_unlink src d = inr d' ->
  stat d' src = (false, false, None) /\ forall p, p <> src -> stat d' p = stat d p.
Proof.
  unfold os_unlink. destruct src as [|n [|]]; [done | | done]. apply remove_file_effect.
Qed.

(** ** FileMover *)

(** What [shutil.move] leaves behind, for a destination that is free and
    a source that is not a directory.  When it returns, the source is
    gone and its content is at the destination.  When it raises, the
    source is where it was, and the tree is either unchanged or has the
    copy of the source at the destination that the fall-back made before
    the source could not be removed. *)
Lemma shutil_move_effect src dst w r w' :
  shutil_move src dst w = (r, w') ->
  console w' = console w
  /\ (forall p, p <> src -> p <> dst -> stat (disk w') p = stat (disk w) p)
  /\ match r with
     | Return _ =>
         exists data,
           file_data (disk w) src = Some data
           /\ stat (disk w') src = (false, false, None)
           /\ stat (disk w') dst = (true, false, Some data)
     | Raise e =>
         is_OSError e = true
         /\ stat (disk w') src = stat (disk w) src
         /\ (disk w' = disk w
             \/ exists data,
                  path_exists (disk w) dst = false
                  /\ file_data (disk w) src = Some data
                  /\ stat (disk w') dst = (true, false, Some data))
     | Diverge => False
     end.
Proof.
  unfold shutil_move, bind, ask, try_except, os_call, raise. simpl.
  destruct (path_exists (disk w) dst || path_is_dir (disk w) src) eqn:Out.
  { intros [= <- <-]. split; [done|]. split; [done|]. split; [done|]. split; [done|].
    by left. }
  apply orb_false_iff in Out as [Hfree Hnodir].
  destruct (os_rename src dst (disk w)) as [e|d'] eqn:Ren; simpl.
  - rewrite (os_rename_raises _ _ _ _ Ren). simpl.
    destruct (copy2 src dst (disk w)) as [e1|d1] eqn:Cp; simpl.
    { intros [= <- <-]. split; [done|]. split; [done|].
      split; [by eapply copy2_raises|]. split; [done|]. by left. }
    destruct (copy2_effect _ _ _ _ Cp) as (data & Hdata & Hdst & Hrest).
    assert (src <> dst) as Hne.
    { intros ->.
      assert (path_exists (disk w) dst = true); [|congruence].
      clear -Hdata. destruct dst as [|n [|m [|]]], (disk w) as [| |r wr es]; try done;
        simpl in *.
      - destruct (lookup_entry n es); [by apply bool_decide_eq_true|done].
      - destruct (lookup_entry n es) as [[|? items]|]; try done.
        destruct (items !! m); [by apply bool_decide_eq_true|done]. }
    destruct (os_unlink src d1) as [e2|d2] eqn:Un; simpl.
    + intros [= <- <-]. simpl. split; [done|].
      split; [intros p Hs Hd; by apply Hrest|].
      split; [by eapply os_unlink_raises|]. split; [by apply Hrest|].
      right. by exists data.
    + destruct (os_unlink_effect _ _ _ Un) as [Usrc Urest].
      intros [= <- <-]. simpl. split; [done|].
      split; [intros p Hs Hd; by rewrite Urest, Hrest|].
      exists data. split; [done|]. split; [done|]. by rewrite Urest.
  - destruct (os_rename_effect _ _ _ _ Ren) as (data & Hdata & Hsrc & Hdst & Hrest).
    intros [= <- <-]. simpl. split; [done|]. split; [done|]. by exists data.
Qed.

(** The error text [move_file] returns for an exception. *)
Lemma move_file_eval source folder w :
  exists dest,
    (if path_exists (disk w) (joinpath folder (Path_name source))
     then _resolve_name_conflict (joinpath folder (Path_name source)) w = (Return dest, w)
     else dest = joinpath folder (Path_name source))
    /\ path_exists (disk w) dest = false
    /\ Path_parent dest = folder
    /\ move_file source folder w
       = match shutil_move source dest w with
         | (Return _, w') => (Return (true, None), w')
         | (Raise e, w') =>
             if is_Exception e
             then (Return (false,
                           Some ((if is_PermissionError e then "Permission denied: "
                                  else if is_OSError e then "OS error: "
                                  else "Unexpected error: ") +:+ str_exn e)), w')
             else (Raise e, w')
         | (Diverge, w') => (Diverge, w')
         end.
Proof.
  unfold move_file, try_except, bind, ask, ret. simpl.
  destruct (path_exists (disk w) (joinpath folder (Path_name source))) eqn:Occ.
  - destruct (resolve_name_conflict_returns w folder (Path_name source))
      as (k & Hk & Hres & Hfree & Hbelow).
    eexists. split; [exact Hres|]. split; [done|].
    split; [apply Path_parent_joinpath|]. rewrite Hres.
    destruct (shutil_move source _ w) as [[[]|e|] w']; [done | by destruct e | done].
  - eexists. split; [reflexivity|]. split; [done|].
    split; [apply Path_parent_joinpath|].
    destruct (shutil_move source _ w) as [[[]|e|] w']; [done | by destruct e | done].
Qed.








(** Every call of [move_file] returns an outcome, with the effect on
    the tree that [shutil_move_effect] describes. *)
Lemma move_file_outcome w source folder :
  exists dest ok msg w',
    move_file source folder w = (Return (ok, msg), w')
    /\ console w' = console w
    /\ Path_parent dest = folder
    /\ path_exists (disk w) dest = false
    /\ (forall p, p <> source -> p <> dest -> stat (disk w') p = stat (disk w) p)
    /\ if (ok : bool)
       then msg = None
            /\ exists data,
                 file_data (disk w) source = Some data
                 /\ stat (disk w') source = (false, false, None)
                 /\ stat (disk w') dest = (true, false, Some data)
       else (exists reason, msg = Some reason /\ reason <> "")
            /\ stat (disk w') source = stat (disk w) source
            /\ (disk w' = disk w
                \/ exists data,
                     file_data (disk w) source = Some data
                     /\ stat (disk w') dest = (true, false, Some data)).
Proof.
  destruct (move_file_eval source folder w) as (dest & _ & Hfree & Hpar & Heval).
  destruct (shutil_move source dest w) as [r w1] eqn:Mv.
  apply shutil_move_effect in Mv as (Hcon & Hrest & Hr).
  destruct r as [[]|e|]; [| |done].
  - exists dest, true, None, w1. do 5 (split; [done|]). by split.
  - destruct Hr as (Hos & Hsrc & Hdst).
    assert (is_Exception e = true) as Hex by by destruct e.
    rewrite Hex in Heval. eexists dest, false, _, w1.
    split; [exact Heval|]. do 4 (split; [done|]).
    split; [eexists; split; [done|]; by destruct e|]. split; [done|].
    destruct Hdst as [?|(data & _ & ? & ?)]; [by left | right; by exists data].
Qed.




(** ** FolderManager *)

Lemma create_category_folder_eval category w :
  create_category_folder category w
  = match disk w with
    | Missing => (Raise FileNotFoundError, w)
    | NotADirectory => (Raise NotADirectoryError, w)
    | Directory r wr es =>
        match lookup_entry category es with
        | Some (Folder _ _) => (Return [category], w)
        | Some (RegularFile _ _) => (Raise FileExistsError, w)
        | None =>
            if wr
            then (Return [category],
                  {| disk := Directory r wr (es ++ [(category, Folder true ∅)]);
                     console := console w;
                     encodes := encodes w |})
            else (Raise PermissionError, w)
        end
    end.
Proof.
  unfold create_category_folder, Path_mkdir, try_except, bind, os_call, ask, raise, ret.
  destruct w as [[| |r wr es] con]; simpl; [done..|].
  destruct (lookup_entry category es) as [[data locked|fw items]|] eqn:L; simpl;
    rewrite ?L; try done.
  destruct wr; simpl; [done|]. by rewrite L.
Qed.

Lemma lookup_entry_app_new n e es :
  lookup_entry n es = None -> lookup_entry n (es ++ [(n, e)]) = Some e.
Proof.
  induction es as [|[k x] es IH]; simpl; [by rewrite String.eqb_refl|].
  by destruct (String.eqb k n).
Qed.

(** What [create_category_folder] can do: return the folder's path, with
    the folder in place, or raise an [OSError] and change nothing. *)
Lemma create_category_folder_outcome category w r w1 :
  create_category_folder category w = (r, w1) ->
  console w1 = console w
  /\ match r with
     | Return folder => folder = [category] /\ path_is_dir (disk w1) folder = true
     | Raise e => is_OSError e = true /\ w1 = w
     | Diverge => False
     end.
Proof.
  rewrite create_category_folder_eval.
  destruct (disk w) as [| |rd wr es] eqn:D; [by intros [= <- <-] ..|].
  destruct (lookup_entry category es) as [[data locked|fw items]|] eqn:L.
  - by intros [= <- <-].
  - intros [= <- <-]. rewrite D. simpl. by rewrite L.
  - destruct wr; intros [= <- <-]; [|done]. simpl.
    by rewrite (lookup_entry_app_new _ _ _ L).
Qed.

(** C8.  A call of [create_category_folder] that succeeds returns the
    path [base_path / category_name] and leaves a directory there; from
    then on, and whenever that path is a directory, the call succeeds
    again, returns the same path and changes nothing. *)
Theorem create_category_folder_idempotent w category :
  (forall folder w1,
      create_category_folder category w = (Return folder, w1) ->
      folder = joinpath [] category
      /\ path_is_dir (disk w1) folder = true
      /\ create_category_folder category w1 = (Return folder, w1))
  /\ (path_is_dir (disk w) (joinpath [] category) = true ->
      create_category_folder category w = (Return (joinpath [] category), w)).
Proof.
  assert (forall v, path_is_dir (disk v) [category] = true ->
                    create_category_folder category v = (Return [category], v)) as Hdir.
  { intros v Hv. rewrite create_category_folder_eval.
    destruct (disk v) as [| |rd wr es]; simpl in Hv; [done..|].
    by destruct (lookup_entry category es) as [[data locked|fw items]|]. }
  split; [|apply Hdir].
  intros folder w1 Hfirst.
  destruct (create_category_folder_outcome _ _ _ _ Hfirst) as (_ & -> & Hnow).
  split; [done|]. split; [done|]. by apply Hdir.
Qed.

Lemma create_category_folder_idempotent_witness :
  exists folder w1,
    create_category_folder "Documents" conflict_tree = (Return folder, w1)
    /\ create_category_folder "Documents" w1 = (Return folder, w1).
Proof.
  destruct (create_category_folder "Documents" conflict_tree) as [r w1] eqn:E.
  assert (exists folder, r = Return folder) as [folder ->].
  { revert E. vm_compute. intros [= <- _]. eexists. reflexivity. }
  exists folder, w1. split; [reflexivity|].
  exact (proj2 (proj2 (proj1 (create_category_folder_idempotent conflict_tree "Documents")
                         folder w1 E))).
Defined.

(** ** FileScanner *)

Lemma scan_loop_eval items files w :
  scan_loop items files w
  = (Return (files ++ List.filter (path_is_file (disk w)) items)%list, w).
Proof.
  revert files. induction items as [|item rest IH]; intros files; simpl.
  - unfold ret. by rewrite app_nil_r.
  - unfold bind, ask. simpl. rewrite IH.
    destruct (path_is_file (disk w) item); [by rewrite <- app_assoc | done].
Qed.

(** A scan reads the tree and leaves the state as it is: it raises what
    listing the desktop directory raises, or returns the regular files
    among the entries listed. *)
Lemma scan_files_eval w :
  scan_files w
  = match os_listdir (disk w) with
    | inl e => (Raise e, w)
    | inr names =>
        (Return (List.filter (path_is_file (disk w)) (map (joinpath []) names)), w)
    end.
Proof.
  unfold scan_files, bind, ask, raise, os_query. simpl.
  destruct (disk w) as [| |l wr es] eqn:D; simpl; rewrite ?D; simpl; [done..|].
  destruct l; [|done]. by rewrite scan_loop_eval, D.
Qed.

Lemma path_is_file_not_dir d p : path_is_file d p = true -> path_is_dir d p = false.
Proof.
  destruct p as [|n [|m [|]]], d as [| |r w es]; simpl; try done.
  - by destruct (lookup_entry n es) as [[]|].
  - destruct (lookup_entry n es) as [[|? items]|]; try done.
    by destruct (items !! m) as [[]|].
Qed.

Lemma scan_files_members w files w' :
  scan_files w = (Return files, w') ->
  w' = w
  /\ forall p,
       p ∈ files
       <-> exists n, p = joinpath [] n /\ path_is_file (disk w) p = true
                     /\ path_is_dir (disk w) p = false.
Proof.
  rewrite scan_files_eval.
  destruct (os_listdir (disk w)) as [e|names] eqn:L; [done|].
  intros [= <- <-]. split; [done|]. intros p.
  rewrite list_elem_of_In, filter_In, <- list_elem_of_In, list_elem_of_fmap. split.
  - intros [(n & -> & _) Hfile]. exists n. split; [done|]. split; [done|].
    by apply path_is_file_not_dir.
  - intros (n & -> & Hfile & _). split; [|done]. exists n. split; [done|].
    destruct (disk w) as [| |r wr es]; simpl in L, Hfile; [done..|].
    destruct r; [|done]. injection L as <-.
    apply lookup_entry_in. unfold joinpath in Hfile. simpl in Hfile.
    destruct (lookup_entry n es); [by eexists | done].
Qed.

(** ** What the program can find out about a path *)

Lemma stat_exists d1 d2 p :
  stat d1 p = stat d2 p -> path_exists d1 p = path_exists d2 p.
Proof. unfold stat. by intros [= -> _ _]. Qed.

Lemma stat_data d1 d2 p : stat d1 p = stat d2 p -> file_data d1 p = file_data d2 p.
Proof. unfold stat. by intros [= _ _ ->]. Qed.

Lemma stat_data_is d p a b x : stat d p = (a, b, x) -> file_data d p = x.
Proof. unfold stat. by intros [= _ _ ->]. Qed.


Lemma parent_in_folder dest c : Path_parent dest = [c] -> exists m, dest = [c; m].
Proof.
  unfold Path_parent. destruct dest as [|a [|b [|x rest]]]; simpl; try done.
  intros [= ->]. by exists b.
Qed.

Lemma path_is_file_data d n :
  path_is_file d [n] = true <-> is_Some (file_data d [n]).
Proof.
  unfold path_is_file, file_data. destruct d as [| |r w es].
  - split; [done | by intros [? ?]].
  - split; [done | by intros [? ?]].
  - destruct (lookup_entry n es) as [[data l|fw items]|].
    + split; [by eexists | done].
    + split; [done | by intros [? ?]].
    + split; [done | by intros [? ?]].
Qed.

Lemma file_data_exists d p : is_Some (file_data d p) -> path_exists d p = true.
Proof.
  unfold file_data, path_exists.
  destruct p as [|n [|m [|]]], d as [| |r w es]; try by intros [? ?].
  - destruct (lookup_entry n es); [intros _; by apply bool_decide_eq_true | by intros [? ?]].
  - destruct (lookup_entry n es) as [[|? items]|]; try by intros [? ?].
    destruct (items !! m); [intros _; by apply bool_decide_eq_true | by intros [? ?]].
Qed.


Lemma Forall2_impl_elem {A B} (P Q : A -> B -> Prop) (l : list A) (k : list B) :
  Forall2 P l k -> (forall x y, x ∈ l -> P x y -> Q x y) -> Forall2 Q l k.
Proof.
  induction 1 as [|x y l k Hxy _ IH]; intros HPQ; constructor.
  - apply HPQ; [left | done].
  - apply IH. intros x' y' Hx'. apply HPQ. by right.
Qed.

(** ** FolderManager: what a call changes *)

Lemma lookup_entry_app k es es' :
  lookup_entry k (es ++ es')
  = match lookup_entry k es with Some e => Some e | None => lookup_entry k es' end.
Proof.
  induction es as [|[x e] es IH]; simpl; [done|]. by destruct (String.eqb x k).
Qed.

Lemma create_category_folder_changes category w r w1 :
  create_category_folder category w = (r, w1) ->
  console w1 = console w
  /\ (forall p, p <> [category] -> stat (disk w1) p = stat (disk w) p)
  /\ (forall p, file_data (disk w1) p = file_data (disk w) p)
  /\ (path_exists (disk w) [category] = true -> disk w1 = disk w)
  /\ match r with
     | Return folder =>
         path_exists (disk w) [category] = false ->
         stat (disk w1) folder = (true, true, None) /\ dir_size (disk w1) folder = 0
     | Raise e => w1 = w
     | Diverge => False
     end.
Proof.
  rewrite create_category_folder_eval.
  destruct (disk w) as [| |rd wr es] eqn:D; [by intros [= <- <-]; rewrite D ..|].
  destruct (lookup_entry category es) as [[data locked|fw items]|] eqn:L.
  - intros [= <- <-]. by rewrite D.
  - intros [= <- <-]. rewrite D. do 4 (split; [done|]). simpl. rewrite L.
    intros H%bool_decide_eq_false. destruct H. by eexists.
  - destruct wr; intros [= <- <-]; [|by rewrite D].
    cbn [disk console]. split; [done|].
    assert (forall k, k <> category ->
              lookup_entry k (es ++ [(category, Folder true ∅)]) = lookup_entry k es)
      as Hother.
    { intros k Hk. rewrite lookup_entry_app. simpl.
      destruct (lookup_entry k es); [done|].
      by destruct (String.eqb_spec category k) as [->|]. }
    assert (lookup_entry category (es ++ [(category, Folder true ∅)])
            = Some (Folder true ∅)) as Hnew by by apply lookup_entry_app_new.
    split; [|split; [|split]].
    + intros [|k [|j [|? ?]]] Hp; [done | | | done]; unfold stat; simpl.
      * rewrite Hother; [done | congruence].
      * destruct (decide (k = category)) as [->|Hk]; [|by rewrite Hother].
        rewrite Hnew, L. by rewrite lookup_empty.
    + intros [|k [|j [|? ?]]]; simpl; try done.
      * destruct (decide (k = category)) as [->|Hk]; [|by rewrite Hother].
        by rewrite Hnew, L.
      * destruct (decide (k = category)) as [->|Hk]; [|by rewrite Hother].
        rewrite Hnew, L. by rewrite lookup_empty.
    + simpl. rewrite L. intros H%bool_decide_eq_true. by destruct H.
    + intros _. unfold stat. simpl. rewrite Hnew. split; [|done].
      by rewrite bool_decide_eq_true_2 by by eexists.
Qed.

(** ** FileCategorizer: letter case and the table *)

Lemma rfind_lower s : Str.rfind (Str.lower s) "." = Str.rfind s ".".
Proof.
  induction s as [|a s IH]; simpl; [done|]. by rewrite IH, lower_char_dot.
Qed.

Lemma lower_length s : String.length (Str.lower s) = String.length s.
Proof. induction s as [|a s IH]; simpl; [done | by rewrite IH]. Qed.

Lemma slice_from_lower i s :
  Str.slice_from i (Str.lower s) = Str.lower (Str.slice_from i s).
Proof.
  revert s. induction i as [|i IH]; intros [|a s]; simpl; auto.
Qed.

Lemma name_suffix_lower s : name_suffix (Str.lower s) = Str.lower (name_suffix s).
Proof.
  unfold name_suffix. rewrite rfind_lower, lower_length, slice_from_lower.
  by destruct (_ && _).
Qed.

(** X1.  The category depends on the final component of the path only,
    and on it only up to the case of its letters: two paths whose names
    agree once both are put in lower case get the same category. *)
Theorem categorize_file_ignores_case (p q : Path) :
  Str.lower (Path_name p) = Str.lower (Path_name q) ->
  categorize_file p = categorize_file q.
Proof.
  intros H. unfold categorize_file, Path_suffix.
  by rewrite <- !name_suffix_lower, H.
Qed.

Lemma categorize_file_ignores_case_witness :
  categorize_file ["Holiday"; "Photo.JpG"] = categorize_file ["PHOTO.jpg"].
Proof.
  apply (categorize_file_ignores_case ["Holiday"; "Photo.JpG"] ["PHOTO.jpg"]).
  reflexivity.
Defined.

Lemma search_categories_Some extension table category :
  search_categories extension table = Some category ->
  exists extensions, In (category, extensions) table /\ In extension extensions.
Proof.
  induction table as [|[c exts] rest IH]; simpl; [done|].
  destruct (ext_in extension exts) eqn:E.
  - intros [= <-]. exists exts. split; [by left|].
    unfold ext_in in E. apply existsb_exists in E as (x & Hx & ->%String.eqb_eq). done.
  - intros (extensions & Hin & Hext)%IH. exists extensions. split; [by right | done].
Qed.

(** X2.  [categorize_file] answers one of the seven labels, and it
    answers a category other than Miscellaneous exactly when the row of
    that category in [CATEGORIES] lists the suffix of the name in lower
    case. *)
Theorem categorize_file_row (file_path : Path) :
  In (categorize_file file_path)
     ["Images"; "Documents"; "Videos"; "Music"; "Archives"; "Code"; "Miscellaneous"]
  /\ forall category,
       category <> "Miscellaneous" ->
       (categorize_file file_path = category
        <-> exists extensions,
              In (category, extensions) CATEGORIES
              /\ In (Str.lower (Path_suffix file_path)) extensions).
Proof.
  unfold categorize_file. set (ext := Str.lower (Path_suffix file_path)). split.
  - destruct (String.eqb ext ""); [simpl; tauto|].
    destruct (search_categories ext CATEGORIES) as [c|] eqn:S; [|simpl; tauto].
    apply search_categories_Some in S as (exts & Hrow & _).
    unfold CATEGORIES in Hrow. simpl in Hrow |- *.
    repeat (destruct Hrow as [[= <- _]|Hrow]; [tauto|]). done.
  - intros category Hc. split.
    + destruct (String.eqb ext ""); [done|].
      destruct (search_categories ext CATEGORIES) as [c|] eqn:S; [|done].
      intros ->. by apply search_categories_Some.
    + intros (exts & Hrow & Hext).
      destruct (table_rows_ok _ _ _ Hrow Hext) as (r & Hr & _ & _ & Hfind).
      rewrite Hr in *. simpl String.eqb. by rewrite Hfind.
Qed.

Lemma categorize_file_row_witness :
  categorize_file ["song.MP3"] = "Music".
Proof.
  apply (proj2 (categorize_file_row ["song.MP3"]) "Music"); [discriminate|].
  exists [".mp3"; ".wav"; ".flac"; ".aac"; ".ogg"; ".wma"].
  split; [unfold CATEGORIES; simpl; tauto | simpl; tauto].
Defined.

(** ** FileScanner: what a scan returns *)

(** X3.  A scan that returns leaves the state as it was, and the paths
    it returns are exactly the entries [desktop_path / n] that are
    regular files; none of them is a directory. *)
Theorem scan_files_exact w files w' :
  scan_files w = (Return files, w') ->
  w' = w
  /\ forall p,
       p ∈ files
       <-> exists n, p = joinpath [] n /\ path_is_file (disk w) p = true
                     /\ path_is_dir (disk w) p = false.
Proof. apply scan_files_members. Qed.

Lemma scan_files_exact_witness :
  path_is_file (disk mixed_tree) ["notes"] = true
  /\ path_is_dir (disk mixed_tree) ["notes"] = false.
Proof.
  destruct (scan_files_exact mixed_tree
              [["photo.JPG"]; ["notes"]; ["archive.tar.gz"]; ["report.pdf"]; ["song.mp3"]]
              mixed_tree) as [_ Hin].
  - vm_compute. reflexivity.
  - destruct (proj1 (Hin ["notes"])) as (n & _ & Hfile & Hdir).
    + apply list_elem_of_In. simpl. tauto.
    + split; [exact Hfile | exact Hdir].
Defined.

(** ** FolderManager: the frame of a call *)

(** X4.  [create_category_folder] prints nothing and leaves every path
    other than [base_path / category_name] as it was.  When something
    is already at that path the tree is not changed at all, and when
    the call raises the whole state is unchanged.  When nothing is
    there and the call returns, the path is a new, empty directory. *)
Theorem create_category_folder_frame category w r w1 :
  create_category_folder category w = (r, w1) ->
  console w1 = console w
  /\ (forall p, p <> [category] -> stat (disk w1) p = stat (disk w) p)
  /\ (forall p, file_data (disk w1) p = file_data (disk w) p)
  /\ (path_exists (disk w) [category] = true -> disk w1 = disk w)
  /\ match r with
     | Return folder =>
         path_exists (disk w) [category] = false ->
         stat (disk w1) folder = (true, true, None) /\ dir_size (disk w1) folder = 0
     | Raise e => w1 = w
     | Diverge => False
     end.
Proof. apply create_category_folder_changes. Qed.

Lemma create_category_folder_frame_witness :
  stat (disk (snd (create_category_folder "Images" mixed_tree))) ["Documents"; "report.pdf"]
  = stat (disk mixed_tree) ["Documents"; "report.pdf"].
Proof.
  destruct (create_category_folder "Images" mixed_tree) as [r w1] eqn:E.
  destruct (create_category_folder_frame "Images" mixed_tree r w1 E) as (_ & Hrest & _).
  apply Hrest. discriminate.
Defined.

(** ** FileMover: free names and chosen names *)

(** X5.  When the name of the source is free in the destination folder,
    a move that succeeds keeps the name: the content of the source is
    then at [destination_folder / source.name], and the source is gone. *)
Theorem move_file_keeps_free_name w source destination_folder w' :
  path_exists (disk w) (joinpath destination_folder (Path_name source)) = false ->
  move_file source destination_folder w = (Return (true, None), w') ->
  is_Some (file_data (disk w) source)
  /\ stat (disk w') (joinpath destination_folder (Path_name source))
     = (true, false, file_data (disk w) source)
  /\ stat (disk w') source = (false, false, None).
Proof.
  intros Hfree Hmv.
  destruct (move_file_eval source destination_folder w) as (dest & Hdest & _ & _ & Heval).
  rewrite Hfree in Hdest. subst dest. rewrite Hmv in Heval.
  destruct (shutil_move source _ w) as [r w1] eqn:Mv.
  apply shutil_move_effect in Mv as (_ & _ & Hr).
  destruct r as [[]|e|]; [|by destruct (is_Exception e)|done].
  injection Heval as ->. destruct Hr as (data & -> & Hsrc & Hdst). by split; [eexists|].
Qed.

Lemma move_file_keeps_free_name_witness :
  stat (disk (snd (move_file ["report.pdf"] ["Documents"] (report_tree []))))
    ["Documents"; "report.pdf"]
  = (true, false, Some "new").
Proof.
  apply (move_file_keeps_free_name (report_tree []) ["report.pdf"] ["Documents"]).
  - vm_compute. reflexivity.
  - vm_compute. reflexivity.
Defined.

Lemma new_name_longer stem suffix k :
  String.length stem + String.length suffix
  < String.length (new_name stem suffix k).
Proof. unfold new_name. rewrite !string_app_length. simpl. lia. Qed.

(** X6.  [_resolve_name_conflict] needs at most one round more than the
    parent directory has entries: the number [k] of the name it returns
    is between 1 and that bound.  The names it tries are pairwise
    different, and the name it returns is not the name it was given. *)
Theorem resolve_name_conflict_bound w folder name :
  let candidate := new_name (name_stem name) (name_suffix name) in
  (forall i j, candidate i = candidate j -> i = j)
  /\ exists k,
       1 <= k <= S (dir_size (disk w) folder)
       /\ _resolve_name_conflict (joinpath folder name) w
          = (Return (joinpath folder (candidate k)), w)
       /\ candidate k <> name.
Proof.
  intros candidate. split; [intros i j; apply new_name_inj|].
  unfold _resolve_name_conflict, Path_stem, Path_suffix.
  rewrite Path_parent_joinpath, Path_name_joinpath.
  destruct (taken_names (disk w) folder) as (names & Hlen & Hnames).
  rewrite <- Hlen.
  destruct (resolve_loop_finds
              (fun n => path_exists (disk w) (joinpath folder n))
              (name_stem name) (name_suffix name) names Hnames) as [n Hn].
  rewrite Hn. apply resolve_loop_Some in Hn as (k & Hk & -> & _).
  exists k. split; [lia|]. split; [done|].
  intros Heq. pose proof (new_name_longer (name_stem name) (name_suffix name) k) as Hlt.
  fold candidate in Heq. unfold candidate in Heq. rewrite Heq in Hlt.
  rewrite <- (stem_suffix name) in Hlt at 3. rewrite string_app_length in Hlt. lia.
Qed.

(** The number goes in front of the suffix as [pathlib] sees it: the
    last of several dotted parts, and nothing for a hidden file. *)
Example new_name_two_dots :
  new_name (name_stem "archive.tar.gz") (name_suffix "archive.tar.gz") 1
  = "archive.tar_1.gz".
Proof. reflexivity. Qed.

Example new_name_hidden_file :
  new_name (name_stem ".bashrc") (name_suffix ".bashrc") 1 = ".bashrc_1".
Proof. reflexivity. Qed.

(** ** The encoding of the console *)

Lemma create_category_folder_encodes category w r w1 :
  create_category_folder category w = (r, w1) -> encodes w1 = encodes w.
Proof.
  rewrite create_category_folder_eval.
  destruct (disk w) as [| |rd wr es]; [by intros [= _ <-] ..|].
  destruct (lookup_entry category es) as [[data locked|fw items]|];
    [by intros [= _ <-] ..|].
  by destruct wr; intros [= _ <-].
Qed.

Lemma shutil_move_encodes src dst w r w' :
  shutil_move src dst w = (r, w') -> encodes w' = encodes w.
Proof.
  unfold shutil_move, bind, ask, try_except, os_call, raise. simpl.
  destruct (path_exists (disk w) dst || path_is_dir (disk w) src);
    [by intros [= _ <-]|].
  destruct (os_rename src dst (disk w)) as [e|d'] eqn:Ren; simpl;
    [|by intros [= _ <-]].
  rewrite (os_rename_raises _ _ _ _ Ren). simpl.
  destruct (copy2 src dst (disk w)); simpl; [by intros [= _ <-]|].
  by destruct (os_unlink src d); simpl; intros [= _ <-].
Qed.

Lemma move_file_encodes source folder w r w' :
  move_file source folder w = (r, w') -> encodes w' = encodes w.
Proof.
  destruct (move_file_eval source folder w) as (dest & _ & _ & _ & ->).
  destruct (shutil_move source dest w) as [rs ws] eqn:Mv.
  apply shutil_move_encodes in Mv.
  destruct rs as [[]|e|]; [by intros [= _ <-] | | by intros [= _ <-]].
  by destruct (is_Exception e); intros [= _ <-].
Qed.

(** ** DesktopOrganizer *)

#[local] Arguments file_data : simpl never.
#[local] Arguments path_exists : simpl never.
#[local] Arguments stat : simpl never.

(** One round of the loop.  The round returns when the name of the file
    can be printed: it has then printed one event about the file and
    counted the file once, as moved or as failed.  Otherwise the line
    about the file, and then the line of the handler, raise
    [UnicodeEncodeError], and the round raises with nothing printed.
    In both cases the paths other than the file that existed before are
    as they were, and no regular file has come to the desktop. *)
Lemma process_file_effect file_path cs w :
  exists r cs' w1,
    process_file file_path (cs, w) = (r, (cs', w1))
    /\ encodes w1 = encodes w
    /\ (forall p, p <> file_path -> path_exists (disk w) p = true ->
                  stat (disk w1) p = stat (disk w) p)
    /\ (forall n, file_data (disk w) [n] = None -> file_data (disk w1) [n] = None)
    /\ match r with
       | Return _ =>
           encodes w (Path_name file_path) = true
           /\ exists ev,
                console w1 = (console w ++ [ev])%list
                /\ match ev with
                   | LogFileMove filename category =>
                       filename = Path_name file_path
                       /\ category = categorize_file file_path
                       /\ cs' = count_moved category cs
                       /\ exists m data,
                            file_data (disk w) file_path = Some data
                            /\ path_exists (disk w) [category; m] = false
                            /\ stat (disk w1) [category; m] = (true, false, Some data)
                            /\ stat (disk w1) file_path = (false, false, None)
                   | LogError filename reason =>
                       filename = Path_name file_path
                       /\ reason <> ""
                       /\ cs' = count_failed cs
                       /\ (path_exists (disk w) file_path = true ->
                           stat (disk w1) file_path = stat (disk w) file_path)
                   | _ => False
                   end
       | Raise e =>
           e = UnicodeEncodeError
           /\ encodes w (Path_name file_path) = false
           /\ console w1 = console w
       | Diverge => False
       end.
Proof.
  destruct (process_file file_path (cs, w)) as [r [cs' w1]] eqn:E.
  exists r, cs', w1. split; [done|]. revert E.
  unfold process_file, try_except, bind, in_world, assign. cbn [fst snd].
  set (category := categorize_file file_path).
  destruct (create_category_folder category w) as [rc w0] eqn:C.
  pose proof (create_category_folder_encodes _ _ _ _ C) as Henc0.
  destruct (create_category_folder_changes _ _ _ _ C) as (Hcon & Hrest & Hdata & Hsame & _).
  destruct (create_category_folder_outcome _ _ _ _ C) as [_ Hout].
  assert (forall p, path_exists (disk w) p = true -> stat (disk w0) p = stat (disk w) p)
    as Hkeep.
  { intros p Hp. destruct (decide (p = [category])) as [->|Hne]; [|by apply Hrest].
    by rewrite Hsame. }
  destruct rc as [folder|e|]; [| |done].
  - destruct Hout as [-> _].
    destruct (move_file_outcome w0 file_path [category])
      as (dest & ok & msg & w2 & Hmv & Hcon1 & Hpar & Hfree & Hrest1 & Hok).
    pose proof (move_file_encodes _ _ _ _ _ Hmv) as Henc2.
    cbn [fst snd]. rewrite Hmv. cbn [fst snd].
    apply parent_in_folder in Hpar as [m ->].
    assert (forall p, p <> file_path -> path_exists (disk w) p = true ->
                      stat (disk w2) p = stat (disk w) p) as Hframe.
    { intros p Hne Hp. rewrite <- (Hkeep p Hp). apply Hrest1; [done|].
      intros ->. pose proof (stat_exists _ _ _ (Hkeep _ Hp)). congruence. }
    assert (forall n, file_data (disk w) [n] = None -> file_data (disk w2) [n] = None)
      as Hnone.
    { intros n Hn. destruct (decide ([n] = file_path)) as [<-|Hne].
      - destruct ok.
        + destruct Hok as (_ & data & _ & Hgone & _). by apply stat_data_is in Hgone.
        + destruct Hok as (_ & Hsrc & _). apply stat_data in Hsrc.
          by rewrite Hsrc, Hdata.
      - transitivity (file_data (disk w0) [n]); [|by rewrite Hdata].
        by apply stat_data, Hrest1. }
    assert (encodes w2 (Path_name file_path) = encodes w (Path_name file_path))
      as Hname by congruence.
    unfold log_file_move, log_error, print, printable.
    destruct ok.
    + destruct Hok as [-> (data & Hsrc & Hgone & Hdst)].
      cbn [fst snd]. rewrite Hname.
      destruct (encodes w (Path_name file_path)) eqn:Enc.
      * intros [= <- <- <-]. cbn [disk console encodes].
        split; [by rewrite Henc2|]. split; [done|]. split; [done|].
        split; [done|]. eexists. rewrite Hcon1, Hcon. split; [reflexivity|].
        split; [done|]. split; [done|]. split; [done|].
        exists m, data. rewrite <- Hdata. split; [done|]. split; [|done].
        rewrite <- Hfree. symmetry. by apply stat_exists, Hrest.
      * cbn [find fst snd is_PermissionError is_OSError is_Exception].
        rewrite Hname. intros [= <- <- <-].
        split; [by rewrite Henc2|]. split; [done|]. split; [done|].
        split; [done|]. split; [done|]. by rewrite Hcon1.
    + destruct Hok as ((reason & -> & Hreason) & Hsrc & _).
      cbn [fst snd default from_option id]. rewrite Hname.
      destruct (encodes w (Path_name file_path)) eqn:Enc.
      * intros [= <- <- <-]. cbn [disk console encodes].
        split; [by rewrite Henc2|]. split; [done|]. split; [done|].
        split; [done|]. eexists. rewrite Hcon1, Hcon. split; [reflexivity|].
        split; [done|]. split; [done|]. split; [done|].
        intros Hp. by rewrite Hsrc, Hkeep.
      * cbn [find fst snd is_PermissionError is_OSError is_Exception].
        rewrite Hname. intros [= <- <- <-].
        split; [by rewrite Henc2|]. split; [done|]. split; [done|].
        split; [done|]. split; [done|]. by rewrite Hcon1.
  - destruct Hout as [Hos ->].
    unfold log_error, print, printable.
    destruct (encodes w (Path_name file_path)) eqn:Enc;
      destruct e; try done;
      cbn [find fst snd is_PermissionError is_OSError is_Exception];
      rewrite Enc; intros [= <- <- <-]; cbn [disk console encodes];
      (split; [done|]); (split; [done|]); (split; [done|]).
    all: try (split; [done|]; eexists; (split; [reflexivity|]); by repeat split).
    all: by repeat split.
Qed.


(** A regular file that is on the desktop after a round was there
    before it, with the same content. *)
Lemma process_file_back file_path cs w cs' w1 n data :
  process_file file_path (cs, w) = (Return tt, (cs', w1)) ->
  file_data (disk w1) [n] = Some data ->
  file_data (disk w) [n] = Some data.
Proof.
  intros Hstep Hd.
  destruct (process_file_effect file_path cs w)
    as (r & cs2 & w2 & Hstep' & _ & Hframe & Hnone & Hr).
  rewrite Hstep in Hstep'. injection Hstep' as <- <- <-.
  destruct (file_data (disk w) [n]) as [data0|] eqn:E;
    [|by rewrite (Hnone n E) in Hd].
  assert (path_exists (disk w) [n] = true) as Hex.
  { apply file_data_exists. rewrite E. by eexists. }
  destruct (decide ([n] = file_path)) as [<-|Hne].
  - destruct Hr as (_ & ev & _ & Hev).
    destruct ev as [|filename category|filename reason|]; try done.
    + destruct Hev as (_ & _ & _ & m & d & _ & _ & _ & Hgone).
      apply stat_data_is in Hgone. congruence.
    + destruct Hev as (_ & _ & _ & Hkeep).
      pose proof (stat_data _ _ _ (Hkeep Hex)). congruence.
  - pose proof (stat_data _ _ _ (Hframe [n] Hne Hex)). congruence.
Qed.

Lemma sum_counts_bump (m : gmap string nat) c :
  sum_counts (<[c := default 0 (m !! c) + 1]> m) = sum_counts m + 1.
Proof.
  unfold sum_counts. destruct (m !! c) as [n|] eqn:E; simpl.
  - rewrite <- insert_delete_eq.
    rewrite map_fold_insert_L; [|intros; lia|apply lookup_delete_eq].
    rewrite (map_fold_delete_L _ _ c n m); [lia|intros; lia|done].
  - rewrite map_fold_insert_L; [lia|intros; lia|done].
Qed.

Lemma count_events_cons f ev evs :
  count_events f (ev :: evs) = (if f ev then 1 else 0) + count_events f evs.
Proof. unfold count_events. simpl. by destruct (f ev). Qed.

Lemma process_files_cons file_path rest s :
  process_files (file_path :: rest) s
  = match process_file file_path s with
    | (Return _, s1) => process_files rest s1
    | (Raise e, s1) => (Raise e, s1)
    | (Diverge, s1) => (Diverge, s1)
    end.
Proof. reflexivity. Qed.

(** The whole loop.  It never runs for ever.  It goes through the files
    in order, printing one event for each, up to the first file whose
    name cannot be printed: there it raises [UnicodeEncodeError].  It
    returns when there is no such file. *)
Lemma process_files_outcome files :
  forall cs w,
  exists r cs' w' finished evs,
    process_files files (cs, w) = (r, (cs', w'))
    /\ encodes w' = encodes w
    /\ console w' = (console w ++ evs)%list
    /\ Forall2 reports finished evs
    /\ Forall (fun f => encodes w (Path_name f) = true) finished
    /\ match r with
       | Return _ => finished = files
       | Raise e =>
           e = UnicodeEncodeError
           /\ exists f rest,
                files = (finished ++ f :: rest)%list
                /\ encodes w (Path_name f) = false
       | Diverge => False
       end.
Proof.
  induction files as [|f rest IH]; intros cs w.
  - exists (Return tt), cs, w, [], []. simpl. unfold ret. rewrite app_nil_r.
    by repeat split.
  - destruct (process_file_effect f cs w)
      as (r & cs1 & w1 & Hstep & Henc & _ & _ & Hr).
    rewrite process_files_cons, Hstep.
    destruct r as [[]|e|]; [| |done].
    + destruct Hr as (Hf & ev & Hcon & Hev).
      destruct (IH cs1 w1)
        as (r' & cs' & w' & fin & evs & Hrun & Henc' & Hcon' & Hrep & Hall & Hr').
      exists r', cs', w', (f :: fin), (ev :: evs).
      split; [done|]. split; [by rewrite Henc', Henc|].
      split; [by rewrite Hcon', Hcon, <- app_assoc|].
      split.
      { constructor; [|done].
        destruct ev as [|filename category|filename reason|]; try done.
        - destruct Hev as (-> & -> & _). by left.
        - destruct Hev as (-> & Hreason & _). right. by exists reason. }
      split.
      { constructor; [done|]. eapply Forall_impl; [exact Hall|].
        intros g. simpl. by rewrite Henc. }
      destruct r' as [[]|e|]; [by subst | | done].
      destruct Hr' as (-> & g & rest' & -> & Hg). split; [done|].
      exists g, rest'. split; [done|]. by rewrite <- Henc.
    + destruct Hr as (-> & Hfalse & Hcon).
      exists (Raise UnicodeEncodeError), cs1, w1, [], [].
      split; [done|]. split; [done|]. split; [by rewrite app_nil_r|].
      split; [constructor|]. split; [constructor|]. split; [done|].
      by exists f, rest.
Qed.

(** A loop that returns: the events it has printed, and the counters. *)
Lemma process_files_run files :
  forall cs w cs' w',
    process_files files (cs, w) = (Return tt, (cs', w')) ->
    exists evs,
      console w' = (console w ++ evs)%list
      /\ Forall2 reports files evs
      /\ moved cs' = moved cs + count_events is_move evs
      /\ failed cs' = failed cs + count_events is_error evs
      /\ (forall c, default 0 (counts cs' !! c)
                    = default 0 (counts cs !! c) + count_events (is_move_into c) evs)
      /\ ((forall c n, counts cs !! c = Some n -> 1 <= n) ->
          forall c n, counts cs' !! c = Some n -> 1 <= n)
      /\ sum_counts (counts cs') = sum_counts (counts cs) + count_events is_move evs.
Proof.
  induction files as [|file_path rest IH]; intros cs w cs' w'.
  - simpl. unfold ret. intros [= <- <-]. exists []. unfold count_events. simpl.
    rewrite app_nil_r. repeat split; auto.
  - rewrite process_files_cons.
    destruct (process_file_effect file_path cs w)
      as (r & cs1 & w1 & Hstep & _ & _ & _ & Hr).
    rewrite Hstep. destruct r as [[]|e|]; [|done|done]. intros Hrun.
    destruct (IH _ _ _ _ Hrun) as (evs & Hcon' & Hrep & Hmv & Hfl & Hcnt & Hpos & Hsum).
    destruct Hr as (_ & ev & Hcon & Hev).
    exists (ev :: evs).
    split; [by rewrite Hcon', Hcon, <- app_assoc|].
    rewrite !count_events_cons.
    destruct ev as [|filename category|filename reason|]; try done.
    + destruct Hev as (-> & -> & -> & _). simpl in *.
      split; [constructor; [by left | done]|].
      split; [lia|]. split; [lia|]. split; [|split].
      * intros c. rewrite Hcnt, count_events_cons. simpl.
        destruct (String.eqb_spec (categorize_file file_path) c) as [<-|Hne].
        -- rewrite lookup_insert_eq. simpl. lia.
        -- by rewrite lookup_insert_ne.
      * intros Hcs. apply Hpos. intros c n.
        destruct (decide (categorize_file file_path = c)) as [<-|Hne].
        -- rewrite lookup_insert_eq. intros [= <-]. lia.
        -- rewrite lookup_insert_ne by done. apply Hcs.
      * rewrite Hsum, sum_counts_bump. lia.
    + destruct Hev as (-> & Hreason & -> & _). simpl in *.
      split; [constructor; [right; by exists reason | done]|].
      split; [lia|]. split; [lia|]. split; [|split]; [|done|lia].
      intros c. by rewrite Hcnt, count_events_cons.
Qed.


(** The loop leaves every path that exists and is not one of the files
    as it was, and never puts a regular file on the desktop: a regular
    file that is there at the end was there before, with its content. *)
Lemma process_files_frame files :
  forall cs w cs' w',
    process_files files (cs, w) = (Return tt, (cs', w')) ->
    (forall p, p ∉ files -> path_exists (disk w) p = true ->
               stat (disk w') p = stat (disk w) p)
    /\ (forall n, file_data (disk w) [n] = None -> file_data (disk w') [n] = None)
    /\ (forall n data, file_data (disk w') [n] = Some data ->
                       file_data (disk w) [n] = Some data).
Proof.
  induction files as [|f rest IH]; intros cs w cs' w'.
  - simpl. unfold ret. by intros [= <- <-].
  - rewrite process_files_cons.
    destruct (process_file_effect f cs w)
      as (r & cs1 & w1 & Hstep & _ & Hframe & Hnone & Hr).
    rewrite Hstep. destruct r as [[]|e|]; [|done|done]. intros Hrun.
    destruct (IH _ _ _ _ Hrun) as (IHframe & IHnone & IHback).
    split; [|split].
    + intros p Hp Hex. apply not_elem_of_cons in Hp as [Hne Hp].
      rewrite <- (Hframe p Hne Hex). apply IHframe; [done|].
      by rewrite (stat_exists _ _ _ (Hframe p Hne Hex)).
    + intros n Hn. by apply IHnone, Hnone.
    + intros n data Hd. apply (process_file_back _ _ _ _ _ _ _ Hstep).
      by apply IHback.
Qed.


(** The loop, move by move: every file reported as moved has been
    moved. *)
Lemma process_files_relocate files :
  forall cs w cs' w',
    Forall (fun f => exists n, f = [n]) files ->
    process_files files (cs, w) = (Return tt, (cs', w')) ->
    exists evs,
      console w' = (console w ++ evs)%list
      /\ Forall2 (relocated (disk w) (disk w')) files evs.
Proof.
  induction files as [|f rest IH]; intros cs w cs' w' Hshape.
  - simpl. unfold ret. intros [= <- <-]. exists []. rewrite app_nil_r. by split.
  - apply Forall_cons in Hshape as [[n ->] Hshape].
    rewrite process_files_cons.
    destruct (process_file_effect [n] cs w)
      as (r & cs1 & w1 & Hstep & _ & Hframe & Hnone & Hr).
    rewrite Hstep. destruct r as [[]|e|]; [|done|done]. intros Hrun.
    destruct Hr as (_ & ev & Hcon & Hev).
    destruct (IH _ _ _ _ Hshape Hrun) as (evs & Hcon' & Hall).
    destruct (process_files_frame rest _ _ _ _ Hrun) as (Hframe' & Hnone' & _).
    exists (ev :: evs).
    split; [by rewrite Hcon', Hcon, <- app_assoc|].
    constructor.
    + destruct ev as [|filename category|filename reason|]; try done.
      destruct Hev as (_ & -> & _ & m & data & Hdata & Hfree & Hdst & Hgone).
      exists m, data. split; [done|].
      split; [by apply Hnone', (stat_data_is _ _ _ _ _ Hgone)|].
      split; [done|]. rewrite <- Hdst. apply Hframe'.
      * intros Hin. rewrite Forall_forall in Hshape.
        by destruct (Hshape _ Hin) as [? ?].
      * apply file_data_exists. rewrite (stat_data_is _ _ _ _ _ Hdst). by eexists.
    + apply (Forall2_impl_elem _ _ _ _ Hall). intros g ev' Hg.
      rewrite Forall_forall in Hshape. destruct (Hshape _ Hg) as [k ->].
      destruct ev' as [|filename category|filename reason|]; simpl; try done.
      intros (m & data & Hdata & Hnow & Hfree & Hdst).
      exists m, data.
      split; [by apply (process_file_back _ _ _ _ _ _ _ Hstep)|].
      split; [done|]. split; [|done].
      destruct (path_exists (disk w) [category; m]) eqn:Hm; [|done].
      assert ([category; m] <> [n]) as Hne by (intros [=]).
      by rewrite <- Hfree, (stat_exists _ _ _ (Hframe _ Hne Hm)).
Qed.

(** A file that is still on the desktop after the loop has failed. *)
Lemma process_files_leftover files :
  forall cs w cs' w',
    process_files files (cs, w) = (Return tt, (cs', w')) ->
    exists evs,
      console w' = (console w ++ evs)%list
      /\ forall n, [n] ∈ files -> is_Some (file_data (disk w') [n]) ->
                   1 <= count_events is_error evs.
Proof.
  induction files as [|f rest IH]; intros cs w cs' w'.
  - simpl. unfold ret. intros [= <- <-]. exists []. rewrite app_nil_r.
    split; [done|]. intros n Hn. by destruct (not_elem_of_nil [n]).
  - rewrite process_files_cons.
    destruct (process_file_effect f cs w)
      as (r & cs1 & w1 & Hstep & _ & _ & _ & Hr).
    rewrite Hstep. destruct r as [[]|e|]; [|done|done]. intros Hrun.
    destruct Hr as (_ & ev & Hcon & Hev).
    destruct (IH _ _ _ _ Hrun) as (evs & Hcon' & Hleft).
    destruct (process_files_frame rest _ _ _ _ Hrun) as (_ & Hnone' & _).
    exists (ev :: evs).
    split; [by rewrite Hcon', Hcon, <- app_assoc|].
    intros n Hn Hsome. rewrite count_events_cons.
    destruct ev as [|filename category|filename reason|]; try done; simpl; [|lia].
    destruct Hev as (_ & _ & _ & m & data & _ & _ & _ & Hgone).
    apply elem_of_cons in Hn as [<-|Hn]; [|by apply (Hleft n)].
    rewrite (Hnone' n (stat_data_is _ _ _ _ _ Hgone)) in Hsome. by destruct Hsome.
Qed.

(** ** DesktopOrganizer: a run *)

Lemma scan_files_state w r v : scan_files w = (r, v) -> v = w.
Proof. rewrite scan_files_eval. destruct (os_listdir _); by intros [= _ <-]. Qed.

Lemma scan_files_shape w files v :
  scan_files w = (Return files, v) ->
  Forall (fun f => exists n, f = [n]) files
  /\ Forall (fun f => path_exists (disk w) f = true) files.
Proof.
  intros [_ Hmem]%scan_files_members. split; apply Forall_forall; intros f Hf;
    apply Hmem in Hf as (n & -> & Hfile & _).
  - by exists n.
  - apply file_data_exists, path_is_file_data, Hfile.
Qed.


(** A run whose scan raises: the run raises the same. *)
Lemma organize_aborts w e v :
  scan_files (snd (log_start w)) = (Raise e, v) ->
  organize w = (Raise e, snd (log_start w)).
Proof.
  intros Hscan. pose proof (scan_files_state _ _ _ Hscan) as ->.
  unfold organize, bind. simpl in Hscan |- *. by rewrite Hscan.
Qed.

(** A run whose scan returns: what it does is what the loop does. *)
Lemma organize_from_scan w files v :
  scan_files (snd (log_start w)) = (Return files, v) ->
  organize w
  = match process_files files
            ({| moved := 0; failed := 0; counts := ∅ |}, snd (log_start w)) with
    | (Return _, (c, w1)) =>
        let stats := {| total_files := length files;
                        files_moved := moved c;
                        files_failed := failed c;
                        category_counts := counts c |} in
        (Return stats,
         {| disk := disk w1; console := (console w1 ++ [LogSummary stats])%list;
            encodes := encodes w1 |})
    | (Raise e, (_, w1)) => (Raise e, w1)
    | (Diverge, (_, w1)) => (Diverge, w1)
    end.
Proof.
  intros Hscan. pose proof (scan_files_state _ _ _ Hscan) as ->.
  unfold organize, bind, with_counters. simpl in Hscan |- *. rewrite Hscan.
  by destruct (process_files files _) as [[[]|e|] [c w1]].
Qed.

(** A run that returns: its scan and its loop have returned. *)
Lemma organize_returns w stats w' :
  organize w = (Return stats, w') ->
  exists files cs w1,
    scan_files (snd (log_start w)) = (Return files, snd (log_start w))
    /\ process_files files
         ({| moved := 0; failed := 0; counts := ∅ |}, snd (log_start w))
       = (Return tt, (cs, w1))
    /\ stats = {| total_files := length files;
                  files_moved := moved cs;
                  files_failed := failed cs;
                  category_counts := counts cs |}
    /\ w' = {| disk := disk w1; console := (console w1 ++ [LogSummary stats])%list;
               encodes := encodes w1 |}.
Proof.
  destruct (scan_files (snd (log_start w))) as [[files|e|] v] eqn:Hscan.
  - rewrite (organize_from_scan _ _ _ Hscan).
    pose proof (scan_files_state _ _ _ Hscan) as ->.
    destruct (process_files files _) as [[[]|e|] [c w1]] eqn:Hrun; [|done|done].
    intros [= <- <-]. by exists files, c, w1.
  - by rewrite (organize_aborts _ _ _ Hscan).
  - rewrite scan_files_eval in Hscan. by destruct (os_listdir _).
Qed.





(** A run that returns: its console, its statistics, and the files it
    reports as moved. *)
Lemma organize_run w stats w' :
  organize w = (Return stats, w') ->
  exists files evs,
    scan_files (snd (log_start w)) = (Return files, snd (log_start w))
    /\ console w' = (console w ++ [LogStart] ++ evs ++ [LogSummary stats])%list
    /\ total_files stats = length files
    /\ Forall2 reports files evs
    /\ Forall2 (relocated (disk w) (disk w')) files evs
    /\ files_moved stats = count_events is_move evs
    /\ files_failed stats = count_events is_error evs
    /\ (forall c, default 0 (category_counts stats !! c)
                  = count_events (is_move_into c) evs)
    /\ (forall c n, category_counts stats !! c = Some n -> 1 <= n)
    /\ sum_counts (category_counts stats) = files_moved stats
    /\ Forall (fun f => encodes w (Path_name f) = true) files.
Proof.
  intros (files & cs & w1 & Hscan & Hrun & -> & ->)%organize_returns.
  assert (Forall (fun f => encodes w (Path_name f) = true) files) as Hprint.
  { destruct (process_files_outcome files {| moved := 0; failed := 0; counts := ∅ |}
                (snd (log_start w)))
      as (r & cs2 & w2 & fin & evs & Hrun' & _ & _ & _ & Hall & Hr).
    rewrite Hrun in Hrun'. injection Hrun' as <- _ _. by subst fin. }
  destruct (process_files_run _ _ _ _ _ Hrun)
    as (evs & Hcon & Hrep & Hmv & Hfl & Hcnt & Hpos & Hsum).
  destruct (scan_files_shape _ _ _ Hscan) as [Hshape _].
  destruct (process_files_relocate _ _ _ _ _ Hshape Hrun) as (evs' & Hcon' & Hrel).
  rewrite Hcon in Hcon'. apply app_inv_head in Hcon' as <-.
  exists files, evs. cbn [disk console total_files files_moved files_failed
                          category_counts].
  split; [done|]. split; [rewrite Hcon; simpl; by rewrite <- !app_assoc|].
  split; [done|]. split; [done|]. split; [done|].
  cbn [moved failed counts] in Hmv, Hfl, Hcnt, Hpos, Hsum.
  split; [done|]. split; [done|].
  split; [intros c; by rewrite Hcnt, lookup_empty|].
  split; [apply Hpos; intros c n; by rewrite lookup_empty|].
  split; [|done].
  rewrite Hsum, Hmv. unfold sum_counts. by rewrite map_fold_empty.
Qed.

Lemma reports_move_into before after c files evs :
  Forall2 reports files evs ->
  Forall2 (relocated before after) files evs ->
  1 <= count_events (is_move_into c) evs ->
  exists file_path m data,
    file_path ∈ files /\ categorize_file file_path = c
    /\ LogFileMove (Path_name file_path) c ∈ evs
    /\ file_data before file_path = Some data
    /\ file_data after file_path = None
    /\ path_exists before [c; m] = false
    /\ stat after [c; m] = (true, false, Some data).
Proof.
  induction 1 as [|file_path ev files evs Hev _ IH];
    [unfold count_events; simpl; lia|].
  intros Hrel. apply Forall2_cons in Hrel as [Hhere Hrel].
  rewrite count_events_cons.
  destruct (is_move_into c ev) eqn:Hc.
  - intros _. destruct Hev as [->|(reason & _ & ->)]; [|done].
    simpl in Hc. apply String.eqb_eq in Hc as <-.
    destruct Hhere as (m & data & Hdata & Hgone & Hfree & Hdst).
    exists file_path, m, data. split; [left|]. split; [done|]. split; [left|]. done.
  - intros Hn. destruct (IH Hrel Hn) as (f & m & data & Hf & Hcat & Hin & Hfacts).
    exists f, m, data. split; [by right|]. split; [done|]. split; [by right | done].
Qed.

(** ** The claims about a run *)











(** C10.  In the statistics that a run returns, a category is a key of
    [category_counts] exactly when a file was moved into it: the value
    of a key is at least 1, it is the number of moves into that category
    the run reported, and one of the scanned files has that category and
    has been moved: it was reported as moved, it is no longer a file of
    the desktop, and its content is in the folder of the category, at a
    path where nothing was before the run.  A category without a move
    is not a key. *)
Theorem category_counts_keys w stats w' :
  organize w = (Return stats, w') ->
  exists files evs,
    scan_files (snd (log_start w)) = (Return files, snd (log_start w))
    /\ console w' = (console w ++ [LogStart] ++ evs ++ [LogSummary stats])%list
    /\ forall c,
         match category_counts stats !! c with
         | Some n =>
             1 <= n
             /\ n = count_events (is_move_into c) evs
             /\ exists file_path m data,
                  file_path ∈ files /\ categorize_file file_path = c
                  /\ LogFileMove (Path_name file_path) c ∈ evs
                  /\ file_data (disk w) file_path = Some data
                  /\ file_data (disk w') file_path = None
                  /\ path_exists (disk w) [c; m] = false
                  /\ stat (disk w') [c; m] = (true, false, Some data)
         | None => count_events (is_move_into c) evs = 0
         end.
Proof.
  intros Horg.
  destruct (organize_run _ _ _ Horg)
    as (files & evs & Hscan & Hcon & _ & Hrep & Hrel & _ & _ & Hcnt & Hpos & _).
  exists files, evs. split; [done|]. split; [done|]. intros c.
  specialize (Hcnt c). specialize (Hpos c).
  destruct (category_counts stats !! c) as [n|]; simpl in Hcnt; [|done].
  specialize (Hpos n eq_refl). split; [done|]. split; [done|].
  apply (reports_move_into _ _ c files evs Hrep Hrel). lia.
Qed.

Lemma category_counts_keys_witness :
  let stats := {| total_files := 5; files_moved := 4; files_failed := 1;
                  category_counts :=
                    {[ "Images" := 1; "Miscellaneous" := 1;
                       "Documents" := 1; "Music" := 1 ]} |} in
  let w' := snd (organize mixed_tree) in
  organize mixed_tree = (Return stats, w')
  /\ exists file_path m,
       categorize_file file_path = "Documents"
       /\ file_data (disk w') file_path = None
       /\ stat (disk w') ["Documents"; m]
          = (true, false, file_data (disk mixed_tree) file_path).
Proof.
  intros stats w'.
  assert (organize mixed_tree = (Return stats, w')) as Horg.
  { vm_compute. reflexivity. }
  split; [exact Horg|].
  destruct (category_counts_keys mixed_tree stats w' Horg)
    as (files & evs & _ & _ & Hkeys).
  specialize (Hkeys "Documents").
  assert (category_counts stats !! "Documents" = Some 1) as Hone.
  { vm_compute. reflexivity. }
  rewrite Hone in Hkeys.
  destruct Hkeys as (_ & _ & f & m & data & _ & Hcat & _ & Hdata & Hgone & _ & Hdst).
  exists f, m. rewrite Hdata. split; [exact Hcat|]. split; [exact Hgone | exact Hdst].
Defined.

(** ** Two runs, evaluated *)

Example organize_conflict_tree :
  organize conflict_tree
  = let stats := {| total_files := 3; files_moved := 2; files_failed := 1;
                    category_counts := {[ "Miscellaneous" := 1; "Documents" := 1 ]} |} in
    (Return stats,
     {| disk := Directory true true
          [ ("a.jpg", RegularFile "A" false);
            ("Miscellaneous", Folder true {[ "Images" := ItemFile "I" ]});
            ("Documents", Folder true {[ "b.txt" := ItemFile "B" ]}) ];
        console :=
          [ LogStart;
            LogError "a.jpg" "OS error (file may be in use): [Errno 17] File exists";
            LogFileMove "Images" "Miscellaneous";
            LogFileMove "b.txt" "Documents";
            LogSummary stats ];
        encodes := ascii_only |}).
Proof. vm_compute. reflexivity. Qed.

Example organize_missing_desktop :
  organize {| disk := Missing; console := []; encodes := ascii_only |}
  = (Raise FileNotFoundError,
     {| disk := Missing; console := [LogStart]; encodes := ascii_only |}).
Proof. reflexivity. Qed.

Example organize_mixed_tree_console :
  console (snd (organize mixed_tree))
  = [ LogStart;
      LogFileMove "photo.JPG" "Images";
      LogFileMove "notes" "Miscellaneous";
      LogError "archive.tar.gz" "Permission denied: [Errno 13] Permission denied";
      LogFileMove "report.pdf" "Documents";
      LogFileMove "song.mp3" "Music";
      LogSummary {| total_files := 5; files_moved := 4; files_failed := 1;
                    category_counts :=
                      {[ "Images" := 1; "Miscellaneous" := 1;
                         "Documents" := 1; "Music" := 1 ]} |} ].
Proof. vm_compute. reflexivity. Qed.

Example organize_mixed_tree_report :
  stat (disk (snd (organize mixed_tree))) ["Documents"; "report_1.pdf"]
  = (true, false, Some "R").
Proof. vm_compute. reflexivity. Qed.

(** ** DesktopOrganizer: what a run leaves *)





(** X9.  After a run that returns, a regular file of the desktop is one
    of the scanned files, and the run has counted at least one failure;
    the run puts no regular file on the desktop.  So after a run
    without failures a scan finds no file. *)
Theorem organize_leftover_files w files v stats w' :
  scan_files (snd (log_start w)) = (Return files, v) ->
  organize w = (Return stats, w') ->
  (forall n, path_is_file (disk w') [n] = true ->
             [n] ∈ files /\ 1 <= files_failed stats)
  /\ (files_failed stats = 0 ->
      forall files2 v2, scan_files w' = (Return files2, v2) -> files2 = []).
Proof.
  intros Hscan (files' & cs & w1 & Hscan' & Hrun & -> & ->)%organize_returns.
  rewrite Hscan in Hscan'. injection Hscan' as <- ->.
  destruct (process_files_run _ _ _ _ _ Hrun) as (evs & Hcon & _ & _ & Hfl & _).
  destruct (process_files_leftover _ _ _ _ _ Hrun) as (evs2 & Hcon2 & Hleft).
  rewrite Hcon in Hcon2. apply app_inv_head in Hcon2 as <-.
  destruct (process_files_frame files _ _ _ _ Hrun) as (_ & Hnone & _).
  cbn [disk files_failed].
  assert (forall n, path_is_file (disk w1) [n] = true ->
                    [n] ∈ files /\ 1 <= failed cs) as Hmain.
  { intros n Hfile. apply path_is_file_data in Hfile as Hsome.
    assert ([n] ∈ files) as Hin.
    { apply (scan_files_members _ _ _ Hscan). exists n. split; [done|].
      assert (path_is_file (disk w) [n] = true) as Hw.
      { apply path_is_file_data. destruct (file_data (disk w) [n]) eqn:E; [by eexists|].
        rewrite (Hnone n E) in Hsome. by destruct Hsome. }
      split; [exact Hw | by apply path_is_file_not_dir]. }
    split; [done|]. rewrite Hfl. simpl. by apply (Hleft n). }
  split; [exact Hmain|].
  intros Hzero [|f rest] v2 Hscan2; [done|]. exfalso.
  destruct (proj1 (proj2 (scan_files_members _ _ _ Hscan2) f)) as (n & -> & Hfile & _);
    [left|].
  destruct (Hmain n Hfile) as [_ ?]. lia.
Qed.

Lemma organize_leftover_files_witness :
  exists stats w',
    organize conflict_tree = (Return stats, w') /\ 1 <= files_failed stats.
Proof.
  destruct (organize conflict_tree) as [r w'] eqn:E.
  assert (path_is_file (disk w') ["a.jpg"] = true) as Hfile.
  { replace w' with (snd (organize conflict_tree)) by (by rewrite E).
    vm_compute. reflexivity. }
  assert (exists stats, r = Return stats) as [stats ->].
  { revert E. vm_compute. intros [= <- _]. eexists. reflexivity. }
  destruct (organize_leftover_files conflict_tree [["a.jpg"]; ["Images"]; ["b.txt"]]
              (snd (log_start conflict_tree)) stats w') as [Hmain _].
  - vm_compute. reflexivity.
  - exact E.
  - exists stats, w'. split; [reflexivity|]. exact (proj2 (Hmain "a.jpg" Hfile)).
Defined.

(** ** The command-line entry point *)



Example main_missing_desktop :
  main (inr None) {| disk := Missing; console := []; encodes := ascii_only |}
  = (Return (1, Some "ERROR: Cannot access Desktop directory"),
     {| disk := Missing; console := [LogStart]; encodes := ascii_only |}).
Proof. reflexivity. Qed.

Example main_version :
  main (inl SystemExit) mixed_tree = (Raise SystemExit, mixed_tree).
Proof. reflexivity. Qed.

Example main_unprintable_tree :
  fst (main (inr None) unprintable_tree)
  = Return (1, Some "ERROR: Unexpected error occurred").
Proof. vm_compute. reflexivity. Qed.

(** ** OrganizationLogger: the summary *)

#[global] Instance row_le_total : Total row_le.
Proof. intros a b. apply (total String.le). Qed.

#[global] Instance row_le_trans : Transitive row_le.
Proof. intros a b c. unfold row_le. apply transitivity. Qed.

Lemma StronglySorted_filter_rows (P : string * nat -> Prop) `{!forall x, Decision (P x)}
    (l : list (string * nat)) :
  StronglySorted row_le l -> StronglySorted row_le (filter P l).
Proof.
  induction 1 as [|x l Hl IH Hx]; [constructor|].
  rewrite filter_cons. destruct (decide (P x)); [|done].
  constructor; [done|]. rewrite Forall_forall in Hx |- *.
  intros y [_ Hy]%list_elem_of_filter. by apply Hx.
Qed.

(** X11.  The summary lists the categories in the order of their names,
    each of them once, and it lists exactly the categories whose count
    in [category_counts] is above 0, with that count. *)
Theorem summary_rows_sorted stats :
  StronglySorted row_le (summary_rows stats)
  /\ NoDup (fst <$> summary_rows stats)
  /\ forall category count,
       (category, count) ∈ summary_rows stats
       <-> category_counts stats !! category = Some count /\ 0 < count.
Proof.
  unfold summary_rows. split; [|split].
  - apply StronglySorted_filter_rows, StronglySorted_merge_sort; apply _.
  - apply (sublist_NoDup _ (fst <$> merge_sort row_le (map_to_list (category_counts stats)))).
    + rewrite merge_sort_Permutation. apply NoDup_fst_map_to_list.
    + apply fmap_sublist, sublist_filter.
  - intros category count.
    rewrite list_elem_of_filter, merge_sort_Permutation, elem_of_map_to_list.
    simpl. tauto.
Qed.

Example summary_lines_mixed_tree :
  match fst (organize mixed_tree) with
  | Return stats => summary_lines stats
  | _ => []
  end
  = ["  Documents: 1"; "  Images: 1"; "  Miscellaneous: 1"; "  Music: 1"].
Proof. vm_compute. reflexivity. Qed.

(** ** DesktopOrganizer: the folder of a failed file *)



(** ** DesktopOrganizer: a desktop without files *)

(** X13.  On a desktop directory that can be listed and holds no regular
    file (it is empty, or holds subdirectories only), a run returns
    statistics that are all 0 with no category, and changes nothing in
    the tree: it makes no folder and prints the banner and the summary
    only. *)
Theorem organize_nothing_to_do w names :
  os_listdir (disk w) = inr names ->
  (forall n, path_is_file (disk w) [n] = false) ->
  let stats := {| total_files := 0; files_moved := 0; files_failed := 0;
                  category_counts := ∅ |} in
  organize w
  = (Return stats,
     {| disk := disk w; console := (console w ++ [LogStart; LogSummary stats])%list;
        encodes := encodes w |}).
Proof.
  intros Hlist Hnone stats.
  assert (scan_files (snd (log_start w)) = (Return [], snd (log_start w))) as Hscan.
  { rewrite scan_files_eval. change (disk (snd (log_start w))) with (disk w).
    rewrite Hlist. f_equal. f_equal. clear Hlist.
    induction names as [|n names IH]; [done|]. cbn [map List.filter].
    change (joinpath [] n) with [n]. by rewrite Hnone. }
  rewrite (organize_from_scan _ _ _ Hscan). simpl. by rewrite <- app_assoc.
Qed.

Lemma organize_nothing_to_do_witness :
  fst (organize {| disk := Directory true true [("Old", Folder true ∅)]; console := [];
                   encodes := ascii_only |})
  = Return {| total_files := 0; files_moved := 0; files_failed := 0;
              category_counts := ∅ |}.
Proof.
  rewrite (organize_nothing_to_do
             {| disk := Directory true true [("Old", Folder true ∅)]; console := [];
                encodes := ascii_only |}
             ["Old"]).
  - reflexivity.
  - reflexivity.
  - intros n. unfold path_is_file. cbn [disk lookup_entry].
    destruct (String.eqb "Old" n); reflexivity.
Defined.
